(** * next-video: asset metadata store (src/assets.ts)

    A shallow embedding of [assets.ts]: storage-key resolution, the
    in-memory [assetCache], the remote load/save client, and the
    [getAsset] / [createAsset] / [updateAsset] operations with the provider
    transform dispatch.

    JavaScript data is embedded as a tree of JSON-like values.  The module
    level [assetCache] object is a finite map from storage key to record.
    Every interaction with the outside world ([fetch], [stat], [Date.now],
    a provider transform call) is answered by an oracle that sees the
    history of earlier interactions and is appended to that history, so
    that "no network read happened" is a statement about the history. *)

From stdpp Require Import base gmap strings list pretty.
From Stdlib Require Import ZArith Lia Ascii.

Set Warnings "-register-all".

Open Scope string_scope.
Open Scope Z_scope.

(** ** JavaScript values *)

Module JS.

(** Values that can live in an asset record.  [VUndef] only occurs in
    objects built in memory (an optional field explicitly set to
    [undefined]); [JSON.parse] never produces it.  Numbers are the integral
    ones (sizes, millisecond timestamps).  An object is its list of own
    enumerable properties in insertion order, with pairwise distinct
    keys. *)
Inductive value : Type :=
| VUndef
| VNull
| VBool (b : bool)
| VNum (n : Z)
| VStr (s : string)
| VArr (items : list value)
| VObj (props : list (string * value)).

Abbreviation object := (list (string * value)).

(** Exceptions, tagged by the [throw] site. *)
Inductive error : Type :=
| MissingFolderConfig                 (* assets.ts:91 *)
| AssetNotFound                       (* assets.ts:64 *)
| SaveFailed (status : Z)             (* assets.ts:119 *)
| AssetNotFoundFor (filePath : string)(* assets.ts:169 *)
| TypeError (what : string)           (* raised by the language itself *)
| Foreign (what : string).            (* raised inside a collaborator *)

Inductive Res (A : Type) : Type :=
| Ok (a : A)
| Err (e : error).
Arguments Ok {A} a.
Arguments Err {A} e.

(** What a call into a collaborator (a built-in, the configuration's
    custom strategy, a provider transform, the network, the file system)
    comes back with: a result, or an exception of its own. *)
Inductive outcome (A : Type) : Type :=
| Returns (a : A)
| Throws (what : string).
Arguments Returns {A} a.
Arguments Throws {A} what.

Definition foreign {A} (o : outcome A) : Res A :=
  match o with
  | Returns a => Ok a
  | Throws what => Err (Foreign what)
  end.

(** Own-property lookup [o[k]] on an object's property list. *)
Fixpoint own (k : string) (o : object) : option value :=
  match o with
  | [] => None
  | (k', v) :: o' => if String.eqb k k' then Some v else own k o'
  end.

(** Property assignment [o[k] = v]: an existing key keeps its position, a
    new key goes last. *)
Fixpoint assign (k : string) (v : value) (o : object) : object :=
  match o with
  | [] => [(k, v)]
  | (k', v') :: o' =>
      if String.eqb k k' then (k, v) :: o' else (k', v') :: assign k v o'
  end.

(** Object spread [{...o, ...p}]: the properties of [p] assigned over [o]
    in order. *)
Definition spread (o p : object) : object :=
  fold_left (fun acc kv => assign (fst kv) (snd kv) acc) p o.

(** Member access [v.k] for a key [k] that no built-in prototype defines
    (every key read in assets.ts is such: status, provider).  Reading a
    property of [null] or [undefined] throws; primitives and arrays have
    no such property. *)
Definition member (v : value) (k : string) : Res value :=
  match v with
  | VUndef | VNull => Err (TypeError "Cannot read properties of null or undefined")
  | VObj o => Ok (default VUndef (own k o))
  | _ => Ok VUndef
  end.

(** ToBoolean. *)
Definition truthy (v : value) : bool :=
  match v with
  | VUndef | VNull => false
  | VBool b => b
  | VNum n => negb (n =? 0)
  | VStr s => negb (String.eqb s "")
  | VArr _ | VObj _ => true
  end.

Definition join_comma (parts : list string) : string :=
  match parts with
  | [] => ""
  | p :: ps => fold_left (fun acc q => acc ++ "," ++ q) ps p
  end.

Fixpoint sequence {A} (l : list (Res A)) : Res (list A) :=
  match l with
  | [] => Ok []
  | Ok a :: l' => match sequence l' with Ok r => Ok (a :: r) | Err e => Err e end
  | Err e :: _ => Err e
  end.

(** ToString on a value.  An array joins its elements with commas, [null]
    and [undefined] elements giving the empty string.  A plain object
    prints as [[object Object]] through the inherited [toString]; when it
    has an own (hence, in data, non-callable) [toString] property no
    conversion method remains and a TypeError is thrown. *)
Fixpoint to_string (v : value) : Res string :=
  match v with
  | VUndef => Ok "undefined"
  | VNull => Ok "null"
  | VBool b => Ok (if b then "true" else "false")
  | VNum n => Ok (pretty n)
  | VStr s => Ok s
  | VArr items =>
      match
        sequence
          (map (fun x =>
                  match x with
                  | VUndef | VNull => Ok ""
                  | _ => to_string x
                  end) items)
      with
      | Ok parts => Ok (join_comma parts)
      | Err e => Err e
      end
  | VObj o =>
      match own "toString" o with
      | Some _ => Err (TypeError "Cannot convert object to primitive value")
      | None => Ok "[object Object]"
      end
  end.

(** Loose equality [v == s] against a string [s] that is not numeric:
    [null] and [undefined] equal only each other, numbers and booleans
    compare as numbers (the string converts to NaN), strings compare as
    strings, objects and arrays are first converted to a primitive. *)
Definition loose_eq_str (v : value) (s : string) : Res bool :=
  match v with
  | VUndef | VNull | VBool _ | VNum _ => Ok false
  | VStr t => Ok (String.eqb t s)
  | VArr _ | VObj _ =>
      match to_string v with
      | Ok t => Ok (String.eqb t s)
      | Err e => Err e
      end
  end.

(** Strict comparison with a string: [v === s]. *)
Definition is_string (s : string) (v : value) : bool :=
  match v with
  | VStr t => String.eqb t s
  | _ => false
  end.

(** Values on which [==] performs no object-to-primitive conversion.  The
    [status] of an [Asset] is declared a string, so it is one of them. *)
Definition primitive (v : value) : bool :=
  match v with
  | VArr _ | VObj _ => false
  | _ => true
  end.

(** The keys of an object (of data, or of functions as the registry of
    transforms is); in a well-formed object no key occurs twice. *)
Definition keys {A} (o : list (string * A)) : list string := map fst o.

(** The own properties of a value: none unless it is an object. *)
Definition props (v : value) : object :=
  match v with
  | VObj o => o
  | _ => []
  end.

Definition is_object (v : value) : bool :=
  match v with
  | VObj _ => true
  | _ => false
  end.

End JS.
Export JS.

(** ** Collaborators *)

(** The configuration object returned by [getVideoConfig] (config.js).
    [folder] and [remoteSourceAssetPath] may be left undefined. *)
Record VideoConfig : Type := {
  apiBaseUrl : string;
  provider : string;
  folder : option string;
  remoteSourceAssetPath : option (string -> outcome string);
}.

Inductive request : Type :=
| GET (url : string)
| POST (url : string) (path : string) (asset : value).

(** What [fetch] resolves to: the [ok] flag, the status code and the
    outcome of [json()]. *)
Record response : Type := {
  ok : bool;
  status : Z;
  json : outcome value;
}.

(** One interaction with the outside world. *)
Inductive event : Type :=
| EvFetch (r : request)
| EvStat (path : string)
| EvNow
| EvTransform (key : string).

(** The outside world: each reply may depend on everything that happened
    before it. *)
Record World : Type := {
  fetch_reply : list event -> request -> outcome response;
  stat_reply : list event -> string -> outcome Z;
  clock : list event -> Z;
}.

(** The entries of the transformers module: export name and its
    [transform] function. *)
Abbreviation TransformerRecord :=
  (list (string * (value -> outcome value))).

(** ** Program state and the monad of asynchronous operations *)

Record state : Type := {
  assetCache : gmap string value;
  history : list event;
}.

(** The state of a freshly loaded module: [let assetCache = {}]. *)
Definition initial : state := {| assetCache := ∅; history := [] |}.

Definition M (A : Type) : Type := state -> Res A * state.

Definition ret {A} (a : A) : M A := fun st => (Ok a, st).

Definition throw {A} (e : error) : M A := fun st => (Err e, st).

Definition bind {A B} (m : M A) (k : A -> M B) : M B :=
  fun st =>
    match m st with
    | (Ok a, st') => k a st'
    | (Err e, st') => (Err e, st')
    end.

Definition lift {A} (r : Res A) : M A := fun st => (r, st).

(** [try { m } catch { h }] *)
Definition try_catch {A} (m : M A) (h : error -> M A) : M A :=
  fun st =>
    match m st with
    | (Ok a, st') => (Ok a, st')
    | (Err e, st') => h e st'
    end.

Definition rbind {A B} (r : Res A) (k : A -> Res B) : Res B :=
  match r with
  | Ok a => k a
  | Err e => Err e
  end.

Declare Scope js_scope.
Delimit Scope js_scope with js.
Notation "'let!' x ':=' m 'in' k" := (bind m (fun x => k))
  (at level 10, x name, m at level 100, k at level 200) : js_scope.
Notation "'let?' x ':=' r 'in' k" := (rbind r (fun x => k))
  (at level 10, x name, r at level 100, k at level 200) : js_scope.
Open Scope js_scope.

(** An interaction: the world answers from the history so far, and the
    interaction is recorded. *)
Definition interact {A} (e : event) (reply : list event -> Res A) : M A :=
  fun st =>
    (reply (history st),
     {| assetCache := assetCache st; history := history st ++ [e] |}).

(** [assetCache[key] = asset] *)
Definition cache_store (key : string) (asset : value) : M unit :=
  fun st =>
    (Ok tt, {| assetCache := <[key := asset]> (assetCache st);
               history := history st |}).

Definition cache_read : M (gmap string value) :=
  fun st => (Ok (assetCache st), st).

(** ** deepMerge (utils/utils.js) *)

(** Modelled from the spec: [deepMerge] lives in utils/utils.js, which is
    not part of the sources at hand.  Spec 4.5: "nested mapping fields are
    merged key-by-key (patch wins on conflict, recursing into nested
    mappings); scalar and array fields are replaced wholesale by the patch
    value when present."  [merge_value patch cur] is the value a field
    holding [cur] gets when the patch holds [patch] for it. *)
Fixpoint merge_value (patch cur : value) {struct patch} : value :=
  match patch, cur with
  | VObj p, VObj c =>
      VObj
        ((fix over (p : object) (acc : object) {struct p} : object :=
            match p with
            | [] => acc
            | (k, pv) :: p' =>
                over p'
                  (assign k
                     (match own k acc with
                      | Some cv => merge_value pv cv
                      | None => pv
                      end) acc)
            end) p c)
  | _, _ => patch
  end.

(** The key-by-key loop of [merge_value] on two mappings, as a fold over
    the patch. *)
Definition merge_into (c p : object) : object :=
  fold_left
    (fun acc kv =>
       assign (fst kv)
         (match own (fst kv) acc with
          | Some cv => merge_value (snd kv) cv
          | None => snd kv
          end) acc)
    p c.

(** What one key holds after a merge, from what the patch and the current
    mapping hold for it ([None]: the key is absent). *)
Definition merge_field (patch cur : option value) : option value :=
  match patch with
  | Some pv =>
      Some (match cur with Some cv => merge_value pv cv | None => pv end)
  | None => cur
  end.

(** Modelled from the spec: the variadic call [deepMerge(o1, ..., on)]
    merges its arguments from left to right into a fresh mapping, each
    later argument being a patch over what the earlier ones gave. *)
Definition deepMerge (objects : list value) : value :=
  fold_left (fun acc o => merge_value o acc) objects (VObj []).

(** ** assets.ts *)

Module Assets.
Section Assets.

(** utils/utils.js, node:path, node:process and the URL built-ins. *)
Variable isRemote : string -> bool.
Variable toSafePath : string -> string.
Variable camelCase : value -> outcome string.
Variable path_join : string -> string -> string.
Variable path_relative : string -> string -> string.
Variable cwd : string.
(** [new URL(url)], giving hostname and pathname; throws on a string
    that is not a URL. *)
Variable URL : string -> outcome (string * string).
Variable decodeURIComponent : string -> outcome string.

(** config.js, providers/transformers.js and the environment. *)
Variable videoConfig : VideoConfig.
Variable transformers : TransformerRecord.
Variable W : World.

Definition getVideoConfig : M VideoConfig := ret videoConfig.

Definition fetch (r : request) : M response :=
  interact (EvFetch r) (fun h => foreign (fetch_reply W h r)).

Definition stat (path : string) : M Z :=
  interact (EvStat path) (fun h => foreign (stat_reply W h path)).

Definition Date_now : M Z :=
  interact EvNow (fun h => Ok (clock W h)).

(** assets.ts:50-73.  The keys that reach [loadAsset] end in ".json"
    ([getAssetConfigPath]), so [assetPath in assetCache] never sees a
    property inherited from Object.prototype and is the lookup in the
    map.  The console.log lines have no effect on the result. *)
Definition loadAsset (apiBaseUrl : string) (assetPath : string) : M value :=
  let! cache := cache_read in
  match cache !! assetPath with
  | Some cached => ret cached
  | None =>
      let! assetFetchResult := fetch (GET (apiBaseUrl ++ "/" ++ assetPath)) in
      if negb (ok assetFetchResult) then throw AssetNotFound
      else
        let! asset := lift (foreign (json assetFetchResult)) in
        let! st := lift (member asset "status") in
        let! ready := lift (loose_eq_str st "ready") in
        let! _ := (if ready : bool then cache_store assetPath asset else ret tt) in
        ret asset
  end.

(** assets.ts:97-103 *)
Definition defaultRemoteSourceAssetPath (url : string) : Res string :=
  let? urlObj := foreign (URL url) in
  let? decoded := foreign (decodeURIComponent (fst urlObj ++ snd urlObj)) in
  Ok (toSafePath decoded).

(** [!folder]: undefined and the empty string are both falsy. *)
Definition folder_missing (f : option string) : bool :=
  match f with
  | None => true
  | Some s => String.eqb s ""
  end.

(** The destructuring default of assets.ts:88: the configured strategy
    for remote urls, or [defaultRemoteSourceAssetPath]. *)
Definition strategy (url : string) : Res string :=
  match remoteSourceAssetPath videoConfig with
  | Some custom => foreign (custom url)
  | None => defaultRemoteSourceAssetPath url
  end.

(** assets.ts:85-95.  Resolution only reads the configuration. *)
Definition getAssetPath (filePath : string) : Res string :=
  if negb (isRemote filePath) then Ok filePath
  else
    let folder := folder videoConfig in
    if folder_missing folder then Err MissingFolderConfig
    else
      let? fragment := strategy filePath in
      Ok (path_join (default "" folder) fragment).

(** assets.ts:81-83 *)
Definition getAssetConfigPath (filePath : string) : Res string :=
  let? assetPath := getAssetPath filePath in
  Ok (assetPath ++ ".json").

(** assets.ts:75-79 *)
Definition getAsset (filePath : string) : M value :=
  let! videoConfig := getVideoConfig in
  let! assetConfigPath := lift (getAssetConfigPath filePath) in
  loadAsset (apiBaseUrl videoConfig) assetConfigPath.

(** assets.ts:105-123.  The request body carries the key and the record
    handed to JSON.stringify. *)
Definition saveAsset (apiBaseUrl assetPath : string) (asset : value) : M unit :=
  let! assetFetchResult := fetch (POST apiBaseUrl assetPath asset) in
  if negb (ok assetFetchResult) then throw (SaveFailed (status assetFetchResult))
  else ret tt.

(** The object literal of assets.ts:137-145, properties defined in source
    order. *)
Definition newAsset (assetDetails : option object) (originalFilePath : string)
    (provider : string) (createdAt updatedAt : Z) : object :=
  assign "updatedAt" (VNum updatedAt)
    (assign "createdAt" (VNum createdAt)
       (assign "providerMetadata" (VObj [])
          (assign "provider" (VStr provider)
             (assign "originalFilePath" (VStr originalFilePath)
                (spread [("status", VStr "pending")]
                   (default [] assetDetails)))))).

(** assets.ts:125-158 *)
Definition createAsset (filePath : string) (assetDetails : option object)
    : M value :=
  let! videoConfig := getVideoConfig in
  let! assetConfigPath := lift (getAssetConfigPath filePath) in
  let originalFilePath :=
    if negb (isRemote filePath) then path_relative cwd filePath else filePath in
  let! createdAt := Date_now in
  let! updatedAt := Date_now in
  let newAssetDetails :=
    newAsset assetDetails originalFilePath (provider videoConfig)
      createdAt updatedAt in
  let! newAssetDetails :=
    (if negb (isRemote filePath) then
       try_catch
         (let! size := stat filePath in
          ret (assign "size" (VNum size) newAssetDetails))
         (fun _ => ret newAssetDetails)
     else ret newAssetDetails) in
  let! _ := saveAsset (apiBaseUrl videoConfig) assetConfigPath
              (VObj newAssetDetails) in
  ret (VObj newAssetDetails).

(** The loop of assets.ts:194-198 over [Object.entries(transformers)]. *)
Fixpoint dispatch (entries : TransformerRecord) (provider asset : value)
    : M value :=
  match entries with
  | [] => ret asset
  | (key, transform) :: rest =>
      let! name := lift (foreign (camelCase provider)) in
      if String.eqb key name then
        interact (EvTransform key) (fun _ => foreign (transform asset))
      else dispatch rest provider asset
  end.

(** assets.ts:190-201 *)
Definition transformAsset (transformers : TransformerRecord) (asset : value)
    : M value :=
  let! provider := lift (member asset "provider") in
  if negb (truthy provider) then ret asset
  else dispatch transformers provider asset.

(** The call at assets.ts:172-174. *)
Definition merged (currentAsset : value) (assetDetails : object) (now : Z)
    : value :=
  deepMerge [currentAsset; VObj assetDetails; VObj [("updatedAt", VNum now)]].

(** assets.ts:160-181 *)
Definition updateAsset (filePath : string) (assetDetails : object) : M value :=
  let! videoConfig := getVideoConfig in
  let! assetConfigPath := lift (getAssetConfigPath filePath) in
  let! currentAsset := getAsset filePath in
  if negb (truthy currentAsset) then throw (AssetNotFoundFor filePath)
  else
    let! now := Date_now in
    let newAssetDetails := merged currentAsset assetDetails now in
    let! newAssetDetails := transformAsset transformers newAssetDetails in
    let! _ := saveAsset (apiBaseUrl videoConfig) assetConfigPath
                newAssetDetails in
    ret newAssetDetails.

(** A caller's request to the module, and the state a sequence of requests
    leaves behind, whether each of them returns or throws. *)
Inductive op : Type :=
| OpGet (filePath : string)
| OpCreate (filePath : string) (assetDetails : option object)
| OpUpdate (filePath : string) (assetDetails : object).

Definition step (st : state) (o : op) : state :=
  match o with
  | OpGet filePath => snd (getAsset filePath st)
  | OpCreate filePath assetDetails => snd (createAsset filePath assetDetails st)
  | OpUpdate filePath assetDetails => snd (updateAsset filePath assetDetails st)
  end.

Definition run (ops : list op) (st : state) : state := fold_left step ops st.

End Assets.
End Assets.

(** ** Predicates used in the statements *)

(** The record's [status] is the string "ready". *)
Definition ready (asset : value) : Prop :=
  member asset "status" = Ok (VStr "ready").

(** The record passes the test [asset.status == "ready"] of
    assets.ts:67. *)
Definition loosely_ready (asset : value) : Prop :=
  exists st, member asset "status" = Ok st /\ loose_eq_str st "ready" = Ok true.

Definition all_ready (cache : gmap string value) : Prop :=
  forall key asset, cache !! key = Some asset -> ready asset.

(** The store answers reads with records whose [status], as the [Asset]
    interface declares, is not an array or an object. *)
Definition typed_store (W : World) : Prop :=
  forall h url r asset st,
    fetch_reply W h (GET url) = Returns r ->
    json r = Returns asset ->
    member asset "status" = Ok st ->
    primitive st = true.

(** The state after one more interaction. *)
Definition after (e : event) (st : state) : state :=
  {| assetCache := assetCache st; history := history st ++ [e] |}.

(** The state after a record was loaded from the store and cached. *)
Definition cached_after (e : event) (key : string) (asset : value)
    (st : state) : state :=
  {| assetCache := <[key := asset]> (assetCache st);
     history := history st ++ [e] |}.

(** A store whose every write fails with [e]: the request is rejected
    with an exception, or answered with a status that is not ok. *)
Definition write_fails_with (W : World) (e : error) : Prop :=
  forall h url key asset,
    match fetch_reply W h (POST url key asset) with
    | Throws what => e = Foreign what
    | Returns r => ok r = false /\ e = SaveFailed (status r)
    end.

(** The outcome of a read of the store, as [loadAsset] reports it. *)
Definition read_outcome (reply : outcome response) : Res value :=
  match reply with
  | Throws what => Err (Foreign what)
  | Returns r =>
      if ok r then
        let? asset := foreign (json r) in
        let? st := member asset "status" in
        let? _ := loose_eq_str st "ready" in
        Ok asset
      else Err AssetNotFound
  end.

(** A clock that never runs backwards as the history grows. *)
Definition monotone_clock (W : World) : Prop :=
  forall h e, clock W h <= clock W (h ++ [e]).

(** The file references a request reads the current record of. *)
Definition reads_of (o : Assets.op) : option string :=
  match o with
  | Assets.OpGet filePath => Some filePath
  | Assets.OpCreate _ _ => None
  | Assets.OpUpdate filePath _ => Some filePath
  end.

(** The outcome of a write of [a] to the store, as [saveAsset] and its
    callers report it. *)
Definition write_outcome {A} (reply : outcome response) (a : A) : Res A :=
  match reply with
  | Throws what => Err (Foreign what)
  | Returns r => if ok r then Ok a else Err (SaveFailed (status r))
  end.

(** An action that leaves [assetCache] alone, whatever its outcome. *)
Definition keeps_cache {A} (m : M A) : Prop :=
  forall st, assetCache (snd (m st)) = assetCache st.

(** [st'] extends [st]: no entry of the cache was removed or replaced, and
    every entry that was added satisfies [P]. *)
Definition extends (P : value -> Prop) (st st' : state) : Prop :=
  assetCache st ⊆ assetCache st'
  /\ forall key asset,
       assetCache st' !! key = Some asset ->
       assetCache st !! key = Some asset \/ P asset.

(** ** A concrete deployment

    Collaborators and a world to run the operations on: one local video
    and one remote video, a store that knows a few records, a mux
    transform that attaches a poster. *)

Module Scenario.

Definition isRemote (s : string) : bool :=
  String.prefix "https://" s || String.prefix "http://" s.

Definition toSafePath (s : string) : string := s.

Definition camelCase (v : value) : outcome string :=
  match v with
  | VStr s => Returns s
  | _ => Throws "name.toLowerCase is not a function"
  end.

Definition path_join (a b : string) : string := a ++ "/" ++ b.

Definition path_relative (from to : string) : string :=
  if String.prefix (from ++ "/") to
  then String.substring (String.length from + 1)
         (String.length to - (String.length from + 1)) to
  else to.

Definition cwd : string := "/app".

Definition URL (url : string) : outcome (string * string) :=
  if String.eqb url "https://example.com/a.mp4"
  then Returns ("example.com", "/a.mp4")
  else Throws "Invalid URL".

Definition decodeURIComponent (s : string) : outcome string := Returns s.

Definition config : VideoConfig :=
  {| apiBaseUrl := "https://api.test/assets";
     provider := "mux";
     folder := Some "videos";
     remoteSourceAssetPath := None |}.

(** The same configuration without a folder. *)
Definition config_no_folder : VideoConfig :=
  {| apiBaseUrl := "https://api.test/assets";
     provider := "mux";
     folder := None;
     remoteSourceAssetPath := None |}.

Definition with_poster (asset : value) : outcome value :=
  match asset with
  | VObj o => Returns (VObj (assign "poster" (VStr "poster.png") o))
  | _ => Throws "not a record"
  end.

Definition registry : TransformerRecord := [("mux", with_poster)].

(** A transform that stamps the record anew. *)
Definition restamp (asset : value) : outcome value :=
  match asset with
  | VObj o => Returns (VObj (assign "createdAt" (VNum 0) o))
  | _ => Throws "not a record"
  end.

Definition ready_record : value :=
  VObj [("status", VStr "ready"); ("originalFilePath", VStr "videos/ready.mp4");
        ("provider", VStr "mux"); ("createdAt", VNum 10); ("updatedAt", VNum 20)].

Definition pending_record : value :=
  VObj [("status", VStr "pending"); ("originalFilePath", VStr "videos/new.mp4");
        ("provider", VStr "mux"); ("createdAt", VNum 30); ("updatedAt", VNum 40)].

Definition found (body : value) : outcome response :=
  Returns {| ok := true; status := 200; json := Returns body |}.

Definition not_found : outcome response :=
  Returns {| ok := false; status := 404; json := Throws "Unexpected token" |}.

(** A store that serves two records and accepts every write; only files
    under videos/ exist on disk; the clock advances with each event. *)
Definition world : World :=
  {| fetch_reply := fun _ r =>
       match r with
       | GET url =>
           if String.eqb url "https://api.test/assets/videos/ready.mp4.json"
           then found ready_record
           else if String.eqb url "https://api.test/assets/videos/new.mp4.json"
           then found pending_record
           else not_found
       | POST _ _ _ => found VNull
       end;
     stat_reply := fun _ p =>
       if String.prefix "videos/" p then Returns 1024
       else Throws "ENOENT";
     clock := fun h => 1000 + Z.of_nat (length h) |}.

Definition getAssetConfigPath :=
  Assets.getAssetConfigPath isRemote toSafePath path_join URL decodeURIComponent.

Definition getAsset :=
  Assets.getAsset isRemote toSafePath path_join URL decodeURIComponent config world.

Definition createAsset :=
  Assets.createAsset isRemote toSafePath path_join path_relative cwd URL
    decodeURIComponent config world.

Definition updateAsset :=
  Assets.updateAsset isRemote toSafePath camelCase path_join URL decodeURIComponent
    config registry world.

(** [updateAsset] with [restamp] registered for mux. *)
Definition updateAsset_restamping :=
  Assets.updateAsset isRemote toSafePath camelCase path_join URL decodeURIComponent
    config [("mux", restamp)] world.

Definition transformAsset := Assets.transformAsset camelCase.

Definition run :=
  Assets.run isRemote toSafePath camelCase path_join path_relative cwd URL
    decodeURIComponent config registry world.

(** The state once videos/ready.mp4 has been read: its record is cached. *)
Definition warm : state := snd (getAsset "videos/ready.mp4" initial).

(** A configuration with a strategy of its own for remote urls. *)
Definition config_custom : VideoConfig :=
  {| apiBaseUrl := "https://api.test/assets";
     provider := "mux";
     folder := Some "videos";
     remoteSourceAssetPath := Some (fun url => Returns ("remote/" ++ url)) |}.

(** A url parser for http and https: the host runs to the first slash,
    the path to the query or the fragment. *)
Fixpoint take_until (stop : Ascii.ascii -> bool) (s : string) : string :=
  match s with
  | EmptyString => EmptyString
  | String c rest => if stop c then EmptyString else String c (take_until stop rest)
  end.

Fixpoint drop_until (stop : Ascii.ascii -> bool) (s : string) : string :=
  match s with
  | EmptyString => EmptyString
  | String c rest => if stop c then s else drop_until stop rest
  end.

Definition after_scheme (url : string) : option string :=
  if String.prefix "https://" url
  then Some (String.substring 8 (String.length url - 8) url)
  else if String.prefix "http://" url
  then Some (String.substring 7 (String.length url - 7) url)
  else None.

Definition parse_url (url : string) : outcome (string * string) :=
  match after_scheme url with
  | None => Throws "Invalid URL"
  | Some rest =>
      let host := take_until (Ascii.eqb "/"%char) rest in
      let path :=
        take_until (fun c => Ascii.eqb "?"%char c || Ascii.eqb "#"%char c)
          (drop_until (Ascii.eqb "/"%char) rest) in
      if String.eqb host "" then Throws "Invalid URL"
      else Returns (host, if String.eqb path "" then "/" else path)
  end.

(** Percent-decoding of single-byte escapes. *)
Definition hex_value (c : Ascii.ascii) : option N :=
  let n := Ascii.N_of_ascii c in
  if ((48 <=? n) && (n <=? 57))%N then Some (n - 48)%N
  else if ((65 <=? n) && (n <=? 70))%N then Some (n - 55)%N
  else if ((97 <=? n) && (n <=? 102))%N then Some (n - 87)%N
  else None.

Fixpoint percent_decode (s : string) : outcome string :=
  match s with
  | EmptyString => Returns EmptyString
  | String c rest =>
      if Ascii.eqb c "%"%char then
        match rest with
        | String a (String b rest') =>
            match hex_value a, hex_value b with
            | Some x, Some y =>
                match percent_decode rest' with
                | Returns decoded =>
                    Returns (String (Ascii.ascii_of_N (16 * x + y)%N) decoded)
                | Throws what => Throws what
                end
            | _, _ => Throws "URI malformed"
            end
        | _ => Throws "URI malformed"
        end
      else
        match percent_decode rest with
        | Returns decoded => Returns (String c decoded)
        | Throws what => Throws what
        end
  end.

(** A toSafePath that replaces the characters a file name may not hold. *)
Fixpoint sanitize (s : string) : string :=
  match s with
  | EmptyString => EmptyString
  | String c rest =>
      String (if existsb (Ascii.eqb c) ["<"; ">"; ":"; "|"; "?"; "*"]%char
              then "_"%char else c)
        (sanitize rest)
  end.

(** Key resolution with these three in place of the plain ones. *)
Definition web_key :=
  Assets.getAssetConfigPath isRemote sanitize path_join parse_url
    percent_decode.

(** The store of [world], refusing every write. *)
Definition readonly_world : World :=
  {| fetch_reply := fun h r =>
       match r with
       | GET _ => fetch_reply world h r
       | POST _ _ _ =>
           Returns {| ok := false; status := 403; json := Throws "no body" |}
       end;
     stat_reply := stat_reply world;
     clock := clock world |}.

(** A record with a nested mapping, of a provider without a transform,
    and a store that serves it. *)
Definition nested_record : value :=
  VObj [("status", VStr "pending"); ("provider", VStr "vimeo");
        ("a", VObj [("x", VNum 0); ("y", VNum 2)]); ("createdAt", VNum 50)].

Definition nested_world : World :=
  {| fetch_reply := fun _ r =>
       match r with
       | GET _ => found nested_record
       | POST _ _ _ => found VNull
       end;
     stat_reply := stat_reply world;
     clock := clock world |}.

(** [updateAsset] against [nested_world]. *)
Definition updateAsset_nested :=
  Assets.updateAsset isRemote toSafePath camelCase path_join URL decodeURIComponent
    config registry nested_world.

(** [createAsset] and [updateAsset] against [readonly_world]. *)
Definition createAsset_readonly :=
  Assets.createAsset isRemote toSafePath path_join path_relative cwd URL
    decodeURIComponent config readonly_world.

Definition updateAsset_readonly :=
  Assets.updateAsset isRemote toSafePath camelCase path_join URL decodeURIComponent
    config registry readonly_world.

(** A store that answers every read with the JSON text [null]. *)
Definition hollow_world : World :=
  {| fetch_reply := fun _ _ => found VNull;
     stat_reply := fun _ _ => Throws "ENOENT";
     clock := fun h => Z.of_nat (length h) |}.

End Scenario.

(** ** Objects: lookup after assignment and spread *)

Lemma own_assign k k' v o :
  own k (assign k' v o) = if String.eqb k k' then Some v else own k o.
Proof.
  induction o as [|[k0 v0] o IH]; simpl.
  - destruct (String.eqb k k'); reflexivity.
  - destruct (String.eqb_spec k' k0) as [->|Hne]; simpl.
    + destruct (String.eqb k k0); reflexivity.
    + destruct (String.eqb_spec k k0) as [->|Hne'].
      * destruct (String.eqb_spec k0 k'); congruence.
      * exact IH.
Qed.

Lemma own_assign_eq k v o : own k (assign k v o) = Some v.
Proof. rewrite own_assign, String.eqb_refl. reflexivity. Qed.

Lemma own_assign_ne k k' v o : k <> k' -> own k (assign k' v o) = own k o.
Proof.
  intros Hne. rewrite own_assign.
  destruct (String.eqb_spec k k'); congruence.
Qed.

Lemma own_spread k o p :
  own k (spread o p) = match own k (rev p) with Some v => Some v | None => own k o end.
Proof.
  unfold spread. revert o.
  induction p as [|[k0 v0] p IH]; intros o; simpl; [reflexivity|].
  rewrite IH. clear IH.
  induction (rev p) as [|[k1 v1] q IHq]; simpl.
  - rewrite own_assign. destruct (String.eqb k k0); reflexivity.
  - destruct (String.eqb k k1); [reflexivity | exact IHq].
Qed.

Lemma own_rev_None k (o : object) : own k o = None -> own k (rev o) = None.
Proof.
  induction o as [|[k0 v0] o IH]; simpl; [reflexivity|].
  destruct (String.eqb_spec k k0) as [->|Hne]; [discriminate|].
  intros H. specialize (IH H).
  induction (rev o) as [|[k1 v1] q IHq]; simpl in *.
  - destruct (String.eqb_spec k k0); congruence.
  - destruct (String.eqb k k1); [discriminate | auto].
Qed.

Lemma own_rev_is_Some k (o : object) : is_Some (own k o) -> is_Some (own k (rev o)).
Proof.
  induction o as [|[k0 v0] o IH]; simpl; [intros [? ?]; discriminate|].
  intros H.
  assert (Hcase : String.eqb k k0 = true \/ is_Some (own k o)).
  { destruct (String.eqb k k0); [left; reflexivity | right; exact H]. }
  clear H.
  assert (Hgen : forall q : object,
             (String.eqb k k0 = true \/ is_Some (own k q)) ->
             is_Some (own k (q ++ [(k0, v0)]))).
  { induction q as [|[k1 v1] q IHq]; simpl; intros [Hk|Hq].
    - rewrite Hk. eauto.
    - destruct Hq; discriminate.
    - destruct (String.eqb k k1); [eauto | apply IHq; left; exact Hk].
    - destruct (String.eqb k k1); [eauto | apply IHq; right; exact Hq]. }
  apply Hgen. destruct Hcase as [Hk|Ho]; [left; exact Hk | right; apply IH, Ho].
Qed.

(** On a well-formed object the order of the properties does not matter
    for lookup. *)
Lemma own_rev k (o : object) : NoDup (keys o) -> own k (rev o) = own k o.
Proof.
  induction o as [|[k0 v0] o IH]; simpl; [reflexivity|].
  intros Hnd. apply NoDup_cons in Hnd as [Hnotin Hnd].
  specialize (IH Hnd).
  assert (Happ : forall q : object,
             own k (q ++ [(k0, v0)]) =
             match own k q with
             | Some v => Some v
             | None => if String.eqb k k0 then Some v0 else None
             end).
  { induction q as [|[k1 v1] q IHq]; simpl; [reflexivity|].
    destruct (String.eqb k k1); [reflexivity | exact IHq]. }
  rewrite Happ, IH.
  destruct (String.eqb_spec k k0) as [->|Hne].
  - assert (Hn : own k0 o = None).
    { clear -Hnotin. induction o as [|[k1 v1] o IHo]; simpl; [reflexivity|].
      destruct (String.eqb_spec k0 k1) as [->|Hne].
      - exfalso. apply Hnotin. simpl. left.
      - apply IHo. intros Hin. apply Hnotin. simpl. right. exact Hin. }
    rewrite Hn. reflexivity.
  - destruct (own k o); reflexivity.
Qed.

(** ** The merge *)

Lemma merge_value_objects p c :
  merge_value (VObj p) (VObj c) = VObj (merge_into c p).
Proof.
  simpl. f_equal. unfold merge_into. revert c.
  induction p as [|[k pv] p IH]; intros c; simpl; [reflexivity|].
  apply IH.
Qed.

(** Scalars and arrays in the patch replace what was there; so does a
    mapping that meets something that is not a mapping. *)
Lemma merge_value_replaces pv cv :
  is_object pv = false \/ is_object cv = false -> merge_value pv cv = pv.
Proof.
  intros [H|H]; destruct pv; try reflexivity; try discriminate.
  destruct cv; try reflexivity; discriminate.
Qed.

Lemma own_merge_into_untouched k p c :
  own k p = None -> own k (merge_into c p) = own k c.
Proof.
  unfold merge_into. revert c.
  induction p as [|[k0 pv] p IH]; intros c; simpl; [reflexivity|].
  destruct (String.eqb_spec k k0) as [->|Hne]; [discriminate|].
  intros Hp. rewrite (IH _ Hp). apply own_assign_ne, Hne.
Qed.

Lemma own_not_key k (o : object) : k ∉ keys o -> own k o = None.
Proof.
  induction o as [|[k0 v0] o IH]; simpl; [reflexivity|].
  intros Hnotin. destruct (String.eqb_spec k k0) as [->|Hne].
  - exfalso. apply Hnotin. left.
  - apply IH. intros Hin. apply Hnotin. right. exact Hin.
Qed.

(** Key by key: the patch wins where it has the key, merging into what
    was there; the other keys stay. *)
Lemma own_merge_into k p c :
  NoDup (keys p) ->
  own k (merge_into c p) =
  match own k p with
  | Some pv =>
      Some (match own k c with Some cv => merge_value pv cv | None => pv end)
  | None => own k c
  end.
Proof.
  unfold merge_into. revert c.
  induction p as [|[k0 pv] p IH]; intros c Hnd; simpl; [reflexivity|].
  apply NoDup_cons in Hnd as [Hnotin Hnd]. simpl in Hnotin.
  fold (keys p) in Hnotin, Hnd. rewrite (IH _ Hnd).
  destruct (String.eqb_spec k k0) as [->|Hne].
  - rewrite (own_not_key _ _ Hnotin). apply own_assign_eq.
  - rewrite own_assign_ne by exact Hne. reflexivity.
Qed.

Lemma own_copy k c : NoDup (keys c) -> own k (merge_into [] c) = own k c.
Proof.
  intros Hnd. rewrite (own_merge_into _ _ _ Hnd). simpl.
  destruct (own k c); reflexivity.
Qed.

(** The three-argument call of [updateAsset] on a current record that is
    a mapping. *)
Lemma merged_object c patch now :
  Assets.merged (VObj c) patch now =
  VObj (merge_into (merge_into (merge_into [] c) patch)
          [("updatedAt", VNum now)]).
Proof.
  unfold Assets.merged, deepMerge. cbn [fold_left].
  rewrite !merge_value_objects. reflexivity.
Qed.

Lemma merged_is_object cur patch now :
  exists o, Assets.merged cur patch now = VObj o
            /\ own "updatedAt" o = Some (VNum now).
Proof.
  unfold Assets.merged, deepMerge. cbn [fold_left].
  set (x := merge_value (VObj patch) (merge_value cur (VObj []))).
  assert (Hx : exists o, x = VObj o).
  { unfold x. destruct (merge_value cur (VObj [])); simpl; eauto. }
  destruct Hx as [o ->]. rewrite merge_value_objects.
  eexists. split; [reflexivity|].
  unfold merge_into. simpl.
  destruct (own "updatedAt" o); apply own_assign_eq.
Qed.

(** The merge call of [updateAsset] on a current record [c] and a patch
    (both objects, so with distinct keys): the key-by-key rule, the
    replacement by values that are not mappings, the same rule one level
    down, and the example of spec section 8. *)
Lemma merge_key_by_key c patch now :
  NoDup (keys c) ->
  NoDup (keys patch) ->
  (forall k, k <> "updatedAt" ->
     own k (props (Assets.merged (VObj c) patch now))
     = merge_field (own k patch) (own k c))
  /\ (forall pv cv, is_object pv = false -> merge_value pv cv = pv)
  /\ (forall p' c' k, NoDup (keys p') ->
        own k (props (merge_value (VObj p') (VObj c')))
        = merge_field (own k p') (own k c'))
  /\ (own "a" c = Some (VObj [("x", VNum 0); ("y", VNum 2)]) ->
      patch = [("a", VObj [("x", VNum 1)])] ->
      own "a" (props (Assets.merged (VObj c) patch now))
      = Some (VObj [("x", VNum 1); ("y", VNum 2)])).
Proof.
  intros Hc Hpatch.
  assert (Hkeys : forall k, k <> "updatedAt" ->
            own k (props (Assets.merged (VObj c) patch now))
            = merge_field (own k patch) (own k c)).
  { intros k Hk. rewrite merged_object. unfold props.
    rewrite own_merge_into_untouched.
    - rewrite (own_merge_into _ _ _ Hpatch), (own_copy _ _ Hc). reflexivity.
    - simpl. destruct (String.eqb_spec k "updatedAt"); congruence. }
  split; [exact Hkeys|]. split; [|split].
  - intros pv cv Hscalar. apply merge_value_replaces. left. exact Hscalar.
  - intros p' c' k Hp'. rewrite merge_value_objects. unfold props.
    apply own_merge_into, Hp'.
  - intros Ha ->. rewrite Hkeys by discriminate. rewrite Ha. reflexivity.
Qed.

(** ** Loose equality on the statuses of the Asset interface *)

Lemma loose_eq_str_primitive v s :
  primitive v = true -> loose_eq_str v s = Ok (is_string s v).
Proof. destruct v; simpl; intros H; try reflexivity; discriminate. Qed.

Lemma is_string_true s v : is_string s v = true <-> v = VStr s.
Proof.
  destruct v; simpl; split; intros H; try discriminate.
  - apply String.eqb_eq in H. congruence.
  - injection H as ->. apply String.eqb_refl.
Qed.

Lemma is_string_false s v : is_string s v = false <-> v <> VStr s.
Proof.
  rewrite <- is_string_true. destruct (is_string s v); split; congruence.
Qed.

(** ** Properties of assets.ts *)

Section Properties.

Context (isRemote : string -> bool) (toSafePath : string -> string)
  (camelCase : value -> outcome string)
  (path_join path_relative : string -> string -> string) (cwd : string)
  (URL : string -> outcome (string * string))
  (decodeURIComponent : string -> outcome string)
  (videoConfig : VideoConfig) (transformers : TransformerRecord) (W : World).

Local Abbreviation strategy :=
  (Assets.strategy toSafePath URL decodeURIComponent videoConfig).
Local Abbreviation getAssetConfigPath :=
  (Assets.getAssetConfigPath isRemote toSafePath path_join URL
     decodeURIComponent videoConfig).
Local Abbreviation fetch := (Assets.fetch W).
Local Abbreviation stat := (Assets.stat W).
Local Abbreviation Date_now := (Assets.Date_now W).
Local Abbreviation loadAsset := (Assets.loadAsset W).
Local Abbreviation saveAsset := (Assets.saveAsset W).
Local Abbreviation getAsset :=
  (Assets.getAsset isRemote toSafePath path_join URL decodeURIComponent
     videoConfig W).
Local Abbreviation createAsset :=
  (Assets.createAsset isRemote toSafePath path_join path_relative cwd URL
     decodeURIComponent videoConfig W).
Local Abbreviation dispatch := (Assets.dispatch camelCase).
Local Abbreviation transformAsset := (Assets.transformAsset camelCase).
Local Abbreviation updateAsset :=
  (Assets.updateAsset isRemote toSafePath camelCase path_join URL
     decodeURIComponent videoConfig transformers W).
Local Abbreviation step :=
  (Assets.step isRemote toSafePath camelCase path_join path_relative cwd URL
     decodeURIComponent videoConfig transformers W).
Local Abbreviation run :=
  (Assets.run isRemote toSafePath camelCase path_join path_relative cwd URL
     decodeURIComponent videoConfig transformers W).

(** *** Storage keys *)

Lemma getAssetConfigPath_local filePath :
  isRemote filePath = false ->
  getAssetConfigPath filePath = Ok (filePath ++ ".json").
Proof.
  intros Hloc. unfold Assets.getAssetConfigPath, Assets.getAssetPath.
  rewrite Hloc. reflexivity.
Qed.

Lemma getAssetConfigPath_remote filePath :
  isRemote filePath = true ->
  getAssetConfigPath filePath =
  if Assets.folder_missing (folder videoConfig) then Err MissingFolderConfig
  else let? fragment := strategy filePath in
       Ok (path_join (default "" (folder videoConfig)) fragment ++ ".json").
Proof.
  intros Hrem. unfold Assets.getAssetConfigPath, Assets.getAssetPath.
  rewrite Hrem. simpl.
  destruct (Assets.folder_missing (folder videoConfig)); [reflexivity|].
  destruct (strategy filePath); reflexivity.
Qed.

(** Every storage key ends in ".json": none of them names a property
    that the cache object inherits. *)
Lemma getAssetConfigPath_suffix filePath key :
  getAssetConfigPath filePath = Ok key ->
  exists assetPath, key = assetPath ++ ".json".
Proof.
  unfold Assets.getAssetConfigPath.
  destruct (Assets.getAssetPath _ _ _ _ _ _ filePath) as [assetPath|e];
    simpl; [|discriminate].
  intros Heq. injection Heq as <-. exists assetPath. reflexivity.
Qed.

Lemma strategy_not_config_error url : strategy url <> Err MissingFolderConfig.
Proof.
  unfold Assets.strategy, Assets.defaultRemoteSourceAssetPath.
  destruct (remoteSourceAssetPath videoConfig) as [custom|].
  - destruct (custom url); discriminate.
  - destruct (URL url) as [[host pathname]|]; simpl; [|discriminate].
    destruct (decodeURIComponent _); discriminate.
Qed.

Lemma getAssetConfigPath_default filePath f :
  isRemote filePath = true ->
  folder videoConfig = Some f ->
  f <> "" ->
  remoteSourceAssetPath videoConfig = None ->
  getAssetConfigPath filePath =
  match URL filePath with
  | Throws what => Err (Foreign what)
  | Returns urlObj =>
      match decodeURIComponent (fst urlObj ++ snd urlObj) with
      | Throws what => Err (Foreign what)
      | Returns decoded => Ok (path_join f (toSafePath decoded) ++ ".json")
      end
  end.
Proof.
  intros Hrem Hf Hne Hdefault. rewrite (getAssetConfigPath_remote _ Hrem), Hf.
  simpl. destruct (String.eqb_spec f ""); [contradiction|].
  unfold Assets.strategy, Assets.defaultRemoteSourceAssetPath.
  rewrite Hdefault. destruct (URL filePath) as [urlObj|what]; simpl; [|reflexivity].
  destruct (decodeURIComponent _); reflexivity.
Qed.

Lemma getAssetConfigPath_custom filePath f custom :
  isRemote filePath = true ->
  folder videoConfig = Some f ->
  f <> "" ->
  remoteSourceAssetPath videoConfig = Some custom ->
  getAssetConfigPath filePath =
  match custom filePath with
  | Returns fragment => Ok (path_join f fragment ++ ".json")
  | Throws what => Err (Foreign what)
  end.
Proof.
  intros Hrem Hf Hne Hcustom. rewrite (getAssetConfigPath_remote _ Hrem), Hf.
  simpl. destruct (String.eqb_spec f ""); [contradiction|].
  unfold Assets.strategy. rewrite Hcustom. destruct (custom filePath); reflexivity.
Qed.

(** C7.  A local reference resolves to itself followed by ".json",
    whatever the configuration holds.  For a remote reference, resolution
    throws the `Missing video folder config` error exactly when the
    configured folder is missing (undefined, or the empty string, both of
    which fail the test [!folder]).  With a folder [f] configured and no
    strategy of its own in the configuration, the key is made from the
    url: hostname and pathname of the parsed url, concatenated, decoded
    with decodeURIComponent, made safe with toSafePath, joined under [f]
    and followed by ".json"; an exception of the parser or of the
    decoder is the caller's.  With a strategy in the configuration, the
    fragment it returns is joined under [f] in the same way. *)
Theorem storage_key_resolution filePath :
  (isRemote filePath = false ->
   getAssetConfigPath filePath = Ok (filePath ++ ".json"))
  /\ (isRemote filePath = true ->
      (getAssetConfigPath filePath = Err MissingFolderConfig <->
       folder videoConfig = None \/ folder videoConfig = Some "")
      /\ (forall f, folder videoConfig = Some f -> f <> "" ->
          (remoteSourceAssetPath videoConfig = None ->
           (forall hostname pathname decoded,
               URL filePath = Returns (hostname, pathname) ->
               decodeURIComponent (hostname ++ pathname) = Returns decoded ->
               getAssetConfigPath filePath
               = Ok (path_join f (toSafePath decoded) ++ ".json"))
           /\ (forall what,
                 URL filePath = Throws what ->
                 getAssetConfigPath filePath = Err (Foreign what))
           /\ (forall hostname pathname what,
                 URL filePath = Returns (hostname, pathname) ->
                 decodeURIComponent (hostname ++ pathname) = Throws what ->
                 getAssetConfigPath filePath = Err (Foreign what)))
          /\ (forall custom,
                remoteSourceAssetPath videoConfig = Some custom ->
                getAssetConfigPath filePath
                = match custom filePath with
                  | Returns fragment => Ok (path_join f fragment ++ ".json")
                  | Throws what => Err (Foreign what)
                  end))).
Proof.
  split; [apply getAssetConfigPath_local|].
  intros Hrem. split.
  - rewrite (getAssetConfigPath_remote _ Hrem).
    destruct (folder videoConfig) as [f|] eqn:Hf; simpl.
    + destruct (String.eqb_spec f "") as [->|Hne].
      * split; [intros _; right; reflexivity | reflexivity].
      * split.
        -- intros H. exfalso. pose proof (strategy_not_config_error filePath) as Hs.
           destruct (strategy filePath); simpl in H; congruence.
        -- intros [H|H]; congruence.
    + split; [intros _; left; reflexivity | reflexivity].
  - intros f Hf Hne. split.
    + intros Hdefault.
      pose proof (getAssetConfigPath_default filePath f Hrem Hf Hne Hdefault)
        as Hkey.
      split; [|split].
      * intros hostname pathname decoded Hurl Hdecode.
        rewrite Hkey, Hurl. simpl. rewrite Hdecode. reflexivity.
      * intros what Hurl. rewrite Hkey, Hurl. reflexivity.
      * intros hostname pathname what Hurl Hdecode.
        rewrite Hkey, Hurl. simpl. rewrite Hdecode. reflexivity.
    + intros custom Hcustom. apply getAssetConfigPath_custom; assumption.
Qed.

(** *** Actions that leave the cache alone *)

Lemma keeps_ret {A} (a : A) : keeps_cache (ret a).
Proof. intros st. reflexivity. Qed.

Lemma keeps_throw {A} e : keeps_cache (@throw A e).
Proof. intros st. reflexivity. Qed.

Lemma keeps_lift {A} (r : Res A) : keeps_cache (lift r).
Proof. intros st. reflexivity. Qed.

Lemma keeps_interact {A} e (reply : list event -> Res A) :
  keeps_cache (interact e reply).
Proof. intros st. reflexivity. Qed.

Lemma keeps_bind {A B} (m : M A) (k : A -> M B) :
  keeps_cache m -> (forall a, keeps_cache (k a)) -> keeps_cache (bind m k).
Proof.
  intros Hm Hk st. unfold bind. specialize (Hm st).
  destruct (m st) as [[a|e] st1]; simpl in *.
  - rewrite Hk. exact Hm.
  - exact Hm.
Qed.

Lemma keeps_try_catch {A} (m : M A) (h : error -> M A) :
  keeps_cache m -> (forall e, keeps_cache (h e)) -> keeps_cache (try_catch m h).
Proof.
  intros Hm Hh st. unfold try_catch. specialize (Hm st).
  destruct (m st) as [[a|e] st1]; simpl in *.
  - exact Hm.
  - rewrite Hh. exact Hm.
Qed.

Ltac keeps :=
  repeat first
    [ apply keeps_ret | apply keeps_throw | apply keeps_lift
    | apply keeps_interact
    | apply keeps_bind; [|intros ?]
    | apply keeps_try_catch; [|intros ?]
    | match goal with |- keeps_cache (if ?b then _ else _) => destruct b end ].

Lemma saveAsset_keeps base key asset : keeps_cache (saveAsset base key asset).
Proof. unfold Assets.saveAsset, Assets.fetch. keeps. Qed.

Lemma dispatch_keeps entries p asset : keeps_cache (dispatch entries p asset).
Proof.
  induction entries as [|[key t] rest IH]; simpl; keeps. exact IH.
Qed.

Lemma transformAsset_keeps entries asset :
  keeps_cache (transformAsset entries asset).
Proof. unfold Assets.transformAsset. keeps. apply dispatch_keeps. Qed.

Lemma createAsset_keeps filePath assetDetails :
  keeps_cache (createAsset filePath assetDetails).
Proof.
  unfold Assets.createAsset, Assets.getVideoConfig, Assets.Date_now, Assets.stat.
  keeps; apply saveAsset_keeps.
Qed.

(** *** Reading: the cache first, then the store *)

Lemma loadAsset_hit base key cached st :
  assetCache st !! key = Some cached ->
  loadAsset base key st = (Ok cached, st).
Proof.
  intros Hhit. unfold Assets.loadAsset, bind, cache_read. simpl.
  rewrite Hhit. reflexivity.
Qed.

(** What a read that misses the cache does, outcome by outcome. *)
Lemma loadAsset_miss base key st :
  assetCache st !! key = None ->
  let read := EvFetch (GET (base ++ "/" ++ key)) in
  loadAsset base key st =
  match fetch_reply W (history st) (GET (base ++ "/" ++ key)) with
  | Throws what => (Err (Foreign what), after read st)
  | Returns r =>
      if ok r then
        match json r with
        | Throws what => (Err (Foreign what), after read st)
        | Returns asset =>
            match member asset "status" with
            | Err e => (Err e, after read st)
            | Ok sv =>
                match loose_eq_str sv "ready" with
                | Err e => (Err e, after read st)
                | Ok true => (Ok asset, cached_after read key asset st)
                | Ok false => (Ok asset, after read st)
                end
            end
        end
      else (Err AssetNotFound, after read st)
  end.
Proof.
  intros Hmiss. unfold Assets.loadAsset, Assets.fetch, bind, cache_read, interact.
  simpl. rewrite Hmiss. simpl.
  destruct (fetch_reply W (history st) _) as [r|what]; simpl; [|reflexivity].
  destruct (ok r); simpl; [|reflexivity].
  unfold lift. destruct (json r) as [asset|what]; simpl; [|reflexivity].
  destruct (member asset "status") as [sv|e]; simpl; [|reflexivity].
  destruct (loose_eq_str sv "ready") as [[|]|e]; reflexivity.
Qed.

Lemma getAsset_resolved filePath key st :
  getAssetConfigPath filePath = Ok key ->
  getAsset filePath st = loadAsset (apiBaseUrl videoConfig) key st.
Proof.
  intros Hkey. unfold Assets.getAsset, Assets.getVideoConfig, bind, lift, ret.
  rewrite Hkey. reflexivity.
Qed.

Lemma getAsset_unresolved filePath e st :
  getAssetConfigPath filePath = Err e ->
  getAsset filePath st = (Err e, st).
Proof.
  intros Hkey. unfold Assets.getAsset, Assets.getVideoConfig, bind, lift, ret.
  rewrite Hkey. reflexivity.
Qed.

(** C1.  [getAsset] looks the resolved key up in the cache first.  On a
    hit it returns the cached record and nothing happens: the state, and
    with it the history of network requests, is the one it started from.
    On a miss it issues the read of the key under [apiBaseUrl]; a record
    that comes back (with a status of the kind the Asset interface
    declares) is returned, and it is put in the cache under the key when
    its status is "ready" and the cache is left as it was when it is not. *)
Theorem getAsset_cache_then_store filePath key st :
  getAssetConfigPath filePath = Ok key ->
  let url := apiBaseUrl videoConfig ++ "/" ++ key in
  (forall cached,
      assetCache st !! key = Some cached ->
      getAsset filePath st = (Ok cached, st))
  /\ (assetCache st !! key = None ->
      history (snd (getAsset filePath st))
      = (history st ++ [EvFetch (GET url)])%list
      /\ forall r asset sv,
          fetch_reply W (history st) (GET url) = Returns r ->
          ok r = true ->
          json r = Returns asset ->
          member asset "status" = Ok sv ->
          primitive sv = true ->
          fst (getAsset filePath st) = Ok asset
          /\ (sv = VStr "ready" ->
              assetCache (snd (getAsset filePath st))
              = <[key := asset]> (assetCache st))
          /\ (sv <> VStr "ready" ->
              assetCache (snd (getAsset filePath st)) = assetCache st)).
Proof.
  intros Hkey url. rewrite (getAsset_resolved _ _ _ Hkey). split.
  - intros cached Hhit. apply loadAsset_hit, Hhit.
  - intros Hmiss. rewrite (loadAsset_miss _ _ _ Hmiss). fold url. split.
    + destruct (fetch_reply W (history st) (GET url)) as [r|what]; [|reflexivity].
      destruct (ok r); [|reflexivity].
      destruct (json r) as [asset|what]; [|reflexivity].
      destruct (member asset "status") as [sv|e]; [|reflexivity].
      destruct (loose_eq_str sv "ready") as [[|]|e]; reflexivity.
    + intros r asset sv Hfetch Hok Hjson Hstatus Hprim.
      rewrite Hfetch, Hok, Hjson, Hstatus, (loose_eq_str_primitive _ _ Hprim).
      destruct (is_string "ready" sv) eqn:Hready.
      * apply is_string_true in Hready. subst sv.
        split; [reflexivity|]. split; [reflexivity|]. congruence.
      * apply is_string_false in Hready.
        split; [reflexivity|]. split; [congruence | reflexivity].
Qed.

(** *** The transform dispatcher *)

Lemma interact_run {A} e (reply : list event -> Res A) st :
  interact e reply st = (reply (history st), after e st).
Proof. reflexivity. Qed.

Lemma dispatch_missing entries p asset name st :
  camelCase p = Returns name ->
  name ∉ keys entries ->
  dispatch entries p asset st = (Ok asset, st).
Proof.
  intros Hname. induction entries as [|[key t] rest IH]; simpl; intros Hnotin.
  - reflexivity.
  - unfold bind, lift. rewrite Hname. simpl.
    destruct (String.eqb_spec key name) as [->|Hne].
    + exfalso. apply Hnotin. left.
    + apply IH. intros Hin. apply Hnotin. right. exact Hin.
Qed.

Lemma dispatch_found entries p asset name transform st :
  camelCase p = Returns name ->
  NoDup (keys entries) ->
  (name, transform) ∈ entries ->
  dispatch entries p asset st
  = (foreign (transform asset), after (EvTransform name) st).
Proof.
  intros Hname. induction entries as [|[key t] rest IH]; simpl; intros Hnd Hin.
  - inversion Hin.
  - apply NoDup_cons in Hnd as [Hnotin Hnd]. simpl in Hnotin.
    unfold bind, lift. rewrite Hname. simpl.
    apply elem_of_cons in Hin as [Heq|Hin].
    + injection Heq as <- <-. rewrite String.eqb_refl. reflexivity.
    + destruct (String.eqb_spec key name) as [->|Hne].
      * exfalso. apply Hnotin. apply list_elem_of_fmap. exists (name, transform).
        split; [reflexivity | exact Hin].
      * apply IH; assumption.
Qed.

(** Whatever happens, the loop calls at most one transform, one of the
    registry, on the record it was given. *)
Lemma dispatch_once entries p asset st :
  dispatch entries p asset st = (Ok asset, st)
  \/ (exists e, dispatch entries p asset st = (Err e, st))
  \/ exists key transform,
       (key, transform) ∈ entries
       /\ dispatch entries p asset st
          = (foreign (transform asset), after (EvTransform key) st).
Proof.
  induction entries as [|[key t] rest IH]; simpl.
  - left. reflexivity.
  - unfold bind, lift. destruct (camelCase p) as [name|what]; simpl.
    + destruct (String.eqb key name).
      * right. right. exists key, t. split; [left | reflexivity].
      * destruct IH as [IH|[[e IH]|(key' & t' & Hin & IH)]].
        -- left. exact IH.
        -- right. left. exists e. exact IH.
        -- right. right. exists key', t'. split; [right; exact Hin | exact IH].
    + right. left. eexists. reflexivity.
Qed.

Lemma transformAsset_once entries asset st :
  transformAsset entries asset st = (Ok asset, st)
  \/ (exists e, transformAsset entries asset st = (Err e, st))
  \/ exists key transform,
       (key, transform) ∈ entries
       /\ transformAsset entries asset st
          = (foreign (transform asset), after (EvTransform key) st).
Proof.
  unfold Assets.transformAsset, bind, lift.
  destruct (member asset "provider") as [p|e]; simpl.
  - destruct (truthy p); simpl; [apply dispatch_once | left; reflexivity].
  - right. left. eexists. reflexivity.
Qed.

(** What a dispatcher that returned has done: nothing, or called the
    transform registered under the canonical form of the provider. *)
Lemma dispatch_applied entries p asset b st st2 :
  dispatch entries p asset st = (Ok b, st2) ->
  (b = asset /\ st2 = st)
  \/ exists name transform,
       camelCase p = Returns name
       /\ (name, transform) ∈ entries
       /\ transform asset = Returns b
       /\ st2 = after (EvTransform name) st.
Proof.
  induction entries as [|[key t] rest IH]; simpl.
  - intros Heq. injection Heq as <- <-. left. auto.
  - unfold bind, lift. destruct (camelCase p) as [name|what] eqn:Hname; simpl;
      [|discriminate].
    destruct (String.eqb_spec key name) as [->|Hne].
    + rewrite interact_run. intros Heq.
      destruct (t asset) as [b'|what] eqn:Ht; simpl in Heq; [|discriminate].
      injection Heq as <- <-. right. exists name, t.
      split; [reflexivity|]. split; [left|]. split; [exact Ht | reflexivity].
    + intros Heq. apply IH in Heq as [Heq|(n & t' & Hn & Hin & Ht & Hst)].
      * left. exact Heq.
      * right. exists n, t'. split; [exact Hn|]. split; [right; exact Hin|].
        split; assumption.
Qed.

Lemma transformAsset_applied entries asset b st st2 :
  transformAsset entries asset st = (Ok b, st2) ->
  (b = asset /\ st2 = st)
  \/ exists p name transform,
       member asset "provider" = Ok p
       /\ camelCase p = Returns name
       /\ (name, transform) ∈ entries
       /\ transform asset = Returns b
       /\ st2 = after (EvTransform name) st.
Proof.
  unfold Assets.transformAsset, bind at 1, lift at 1.
  destruct (member asset "provider") as [p|e]; simpl; [|discriminate].
  destruct (truthy p); simpl.
  - intros Heq. apply dispatch_applied in Heq as [Heq|(n & t & Hn & Hin & Ht & Hst)].
    + left. exact Heq.
    + right. exists p, n, t. auto.
  - intros Heq. injection Heq as <- <-. left. auto.
Qed.

(** C6.  For every registry (an object: its keys are distinct) and every
    record whose provider field reads [p]: when [p] is absent or otherwise
    falsy the record is returned unchanged and no transform is called;
    when camelCase gives [name] for [p], the transform registered under
    [name] is called on the record and its result (or its exception) is
    the dispatcher's, and if no key equals [name] the record is returned
    unchanged and no transform is called.  In every case at most one
    transform call is made. *)
Theorem transformAsset_dispatch (registry : TransformerRecord) asset p st :
  NoDup (keys registry) ->
  member asset "provider" = Ok p ->
  (truthy p = false -> transformAsset registry asset st = (Ok asset, st))
  /\ (truthy p = true ->
      forall name, camelCase p = Returns name ->
        (forall transform, (name, transform) ∈ registry ->
           transformAsset registry asset st
           = (foreign (transform asset), after (EvTransform name) st))
        /\ (name ∉ keys registry ->
            transformAsset registry asset st = (Ok asset, st)))
  /\ (history (snd (transformAsset registry asset st)) = history st
      \/ exists key,
          history (snd (transformAsset registry asset st))
          = (history st ++ [EvTransform key])%list).
Proof.
  intros Hnd Hp. split; [|split].
  - intros Hfalsy. unfold Assets.transformAsset, bind, lift.
    rewrite Hp. simpl. rewrite Hfalsy. reflexivity.
  - intros Htruthy name Hname.
    unfold Assets.transformAsset, bind, lift. rewrite Hp. simpl.
    rewrite Htruthy. simpl. split.
    + intros transform Hin. apply dispatch_found; assumption.
    + intros Hnotin. eapply dispatch_missing; eassumption.
  - destruct (transformAsset_once registry asset st)
      as [H|[[e H]|(key & t & _ & H)]]; rewrite H; simpl; eauto.
Qed.

(** *** Updating: read, merge, transform, save *)

(** The steps of [updateAsset] once the current record is in hand. *)
Lemma updateAsset_steps filePath assetDetails st :
  updateAsset filePath assetDetails st =
  match getAssetConfigPath filePath with
  | Err e => (Err e, st)
  | Ok key =>
      match getAsset filePath st with
      | (Err e, st1) => (Err e, st1)
      | (Ok currentAsset, st1) =>
          if truthy currentAsset then
            (let! newAssetDetails :=
               transformAsset transformers
                 (Assets.merged currentAsset assetDetails
                    (clock W (history st1))) in
             let! _ := saveAsset (apiBaseUrl videoConfig) key newAssetDetails in
             ret newAssetDetails) (after EvNow st1)
          else (Err (AssetNotFoundFor filePath), st1)
      end
  end.
Proof.
  unfold Assets.updateAsset, Assets.getVideoConfig.
  unfold bind at 1 2. unfold ret at 1. unfold lift at 1.
  destruct (getAssetConfigPath filePath) as [key|e]; [|reflexivity].
  unfold bind at 1.
  destruct (getAsset filePath st) as [[currentAsset|e] st1]; [|reflexivity].
  destruct (truthy currentAsset); reflexivity.
Qed.

Lemma updateAsset_cache filePath assetDetails st :
  assetCache (snd (updateAsset filePath assetDetails st))
  = assetCache (snd (getAsset filePath st)).
Proof.
  rewrite updateAsset_steps.
  destruct (getAssetConfigPath filePath) as [key|e] eqn:Hkey.
  - destruct (getAsset filePath st) as [[currentAsset|e] st1]; [|reflexivity].
    destruct (truthy currentAsset); [|reflexivity].
    simpl.
    assert (Hk : keeps_cache
              (let! newAssetDetails :=
                 transformAsset transformers
                   (Assets.merged currentAsset assetDetails
                      (clock W (history st1))) in
               let! _ := saveAsset (apiBaseUrl videoConfig) key newAssetDetails in
               ret newAssetDetails)).
    { apply keeps_bind; [apply transformAsset_keeps|]. intros new.
      apply keeps_bind; [apply saveAsset_keeps|]. intros _. apply keeps_ret. }
    rewrite Hk. reflexivity.
  - rewrite (getAsset_unresolved _ _ _ Hkey). reflexivity.
Qed.

Lemma saveAsset_run base key asset st :
  let write := EvFetch (POST base key asset) in
  saveAsset base key asset st =
  match fetch_reply W (history st) (POST base key asset) with
  | Throws what => (Err (Foreign what), after write st)
  | Returns r =>
      if ok r then (Ok tt, after write st)
      else (Err (SaveFailed (status r)), after write st)
  end.
Proof.
  unfold Assets.saveAsset, Assets.fetch, bind, interact. simpl.
  destruct (fetch_reply W (history st) _) as [r|what]; simpl; [|reflexivity].
  destruct (ok r); reflexivity.
Qed.

(** A successful update went through every step, and ended with the write
    of the record it returns. *)
Lemma updateAsset_success filePath assetDetails st r st' :
  updateAsset filePath assetDetails st = (Ok r, st') ->
  exists key currentAsset st1 st2,
    getAssetConfigPath filePath = Ok key
    /\ getAsset filePath st = (Ok currentAsset, st1)
    /\ truthy currentAsset = true
    /\ transformAsset transformers
         (Assets.merged currentAsset assetDetails (clock W (history st1)))
         (after EvNow st1) = (Ok r, st2)
    /\ st' = after (EvFetch (POST (apiBaseUrl videoConfig) key r)) st2.
Proof.
  rewrite updateAsset_steps.
  destruct (getAssetConfigPath filePath) as [key|e]; [|discriminate].
  destruct (getAsset filePath st) as [[currentAsset|e] st1]; [|discriminate].
  destruct (truthy currentAsset) eqn:Htruthy; [|discriminate].
  unfold bind at 1.
  destruct (transformAsset transformers _ _) as [[new|e] st2] eqn:Htransform;
    [|discriminate].
  unfold bind. rewrite saveAsset_run.
  destruct (fetch_reply W (history st2) _) as [reply|what]; [|discriminate].
  destruct (ok reply); [|discriminate].
  unfold ret. intros Heq. injection Heq as <- <-.
  exists key, currentAsset, st1, st2. repeat split; try reflexivity; assumption.
Qed.

(** C4.  Once [updateAsset] has read the current record, the record it
    merges and hands to the transform dispatcher is the merge of the
    current record, the patch and [updatedAt] set to the reading of
    Date.now() taken for this merge; whatever the patch holds, also an
    updatedAt of its own, the merged record's updatedAt is that reading. *)
Theorem merged_updatedAt_is_merge_time filePath assetDetails st currentAsset st1 :
  getAsset filePath st = (Ok currentAsset, st1) ->
  truthy currentAsset = true ->
  let now := clock W (history st1) in
  let mergedRecord := Assets.merged currentAsset assetDetails now in
  member mergedRecord "updatedAt" = Ok (VNum now)
  /\ exists key,
      getAssetConfigPath filePath = Ok key
      /\ updateAsset filePath assetDetails st =
         (let! newAssetDetails := transformAsset transformers mergedRecord in
          let! _ := saveAsset (apiBaseUrl videoConfig) key newAssetDetails in
          ret newAssetDetails) (after EvNow st1).
Proof.
  intros Hget Htruthy now mergedRecord. split.
  - destruct (merged_is_object currentAsset assetDetails now) as (o & Ho & Hup).
    unfold mergedRecord. rewrite Ho. simpl. rewrite Hup. reflexivity.
  - destruct (getAssetConfigPath filePath) as [key|e] eqn:Hkey.
    + exists key. split; [reflexivity|].
      rewrite updateAsset_steps, Hkey, Hget, Htruthy. reflexivity.
    + rewrite (getAsset_unresolved _ _ _ Hkey) in Hget. discriminate.
Qed.

Lemma merged_untouched_key c patch now k :
  NoDup (keys c) ->
  own k patch = None ->
  k <> "updatedAt" ->
  member (Assets.merged (VObj c) patch now) k = member (VObj c) k.
Proof.
  intros Hnd Hpatch Hk. rewrite merged_object. unfold member.
  rewrite own_merge_into_untouched.
  - rewrite (own_merge_into_untouched _ _ _ Hpatch), (own_copy _ _ Hnd).
    reflexivity.
  - simpl. destruct (String.eqb_spec k "updatedAt"); congruence.
Qed.

Lemma merged_patched_key c patch now k pv :
  NoDup (keys c) ->
  NoDup (keys patch) ->
  own k patch = Some pv ->
  is_object pv = false ->
  k <> "updatedAt" ->
  member (Assets.merged (VObj c) patch now) k = Ok pv.
Proof.
  intros Hc Hpatch Hk Hscalar Hne. rewrite merged_object. unfold member.
  rewrite own_merge_into_untouched.
  - rewrite (own_merge_into _ _ _ Hpatch), Hk.
    destruct (own k (merge_into [] c)) as [cv|]; simpl; [|reflexivity].
    rewrite merge_value_replaces by (left; exact Hscalar). reflexivity.
  - simpl. destruct (String.eqb_spec k "updatedAt"); congruence.
Qed.

(** C3, as the code has it.  Let an update of an existing record, a
    mapping, with a patch succeed.  The record it merges has the current
    record's createdAt when the patch has no createdAt key, and the
    patch's createdAt when the patch gives one that is not a mapping.  The
    record it returns, which is the record it wrote to the store, is the
    merged record, or what the one transform applied (the one registered
    under the canonical form of the merged record's provider) made of it;
    so it has the merged record's createdAt whenever that transform
    leaves createdAt alone. *)
Theorem updateAsset_createdAt_follows_patch
    filePath assetDetails st c st1 r st' :
  getAsset filePath st = (Ok (VObj c), st1) ->
  NoDup (keys c) ->
  NoDup (keys assetDetails) ->
  updateAsset filePath assetDetails st = (Ok r, st') ->
  let mergedRecord :=
    Assets.merged (VObj c) assetDetails (clock W (history st1)) in
  (own "createdAt" assetDetails = None ->
   member mergedRecord "createdAt" = member (VObj c) "createdAt")
  /\ (forall pv,
        own "createdAt" assetDetails = Some pv ->
        is_object pv = false ->
        member mergedRecord "createdAt" = Ok pv)
  /\ (r = mergedRecord
      \/ exists p name transform,
          member mergedRecord "provider" = Ok p
          /\ camelCase p = Returns name
          /\ (name, transform) ∈ transformers
          /\ transform mergedRecord = Returns r)
  /\ ((forall p name transform,
         member mergedRecord "provider" = Ok p ->
         camelCase p = Returns name ->
         (name, transform) ∈ transformers ->
         transform mergedRecord = Returns r ->
         member r "createdAt" = member mergedRecord "createdAt") ->
      member r "createdAt" = member mergedRecord "createdAt")
  /\ exists key,
      getAssetConfigPath filePath = Ok key
      /\ last (history st')
         = Some (EvFetch (POST (apiBaseUrl videoConfig) key r)).
Proof.
  intros Hget Hc Hpatch Hupdate mergedRecord.
  apply updateAsset_success in Hupdate
    as (key & cur & st1' & st2 & Hkey & Hget' & _ & Htransform & ->).
  rewrite Hget in Hget'. injection Hget' as <- <-.
  fold mergedRecord in Htransform.
  assert (Happlied : r = mergedRecord
            \/ exists p name transform,
                member mergedRecord "provider" = Ok p
                /\ camelCase p = Returns name
                /\ (name, transform) ∈ transformers
                /\ transform mergedRecord = Returns r).
  { apply transformAsset_applied in Htransform
      as [[-> _]|(p & name & t & Hp & Hname & Hin & Ht & _)].
    - left. reflexivity.
    - right. exists p, name, t. auto. }
  split; [|split; [|split; [exact Happlied|split]]].
  - intros Hnone. apply merged_untouched_key; [assumption..|discriminate].
  - intros pv Hsome Hscalar.
    apply merged_patched_key; [assumption..|discriminate].
  - intros Hpreserve.
    destruct Happlied as [->|(p & name & t & Hp & Hname & Hin & Ht)];
      [reflexivity|].
    eapply Hpreserve; eassumption.
  - exists key. split; [exact Hkey|]. simpl. apply last_snoc.
Qed.

(** C5.  The merge of [updateAsset].  Once the current record [c], a
    mapping, is read, [updateAsset] goes on to transform and write the
    merge of [c], the patch and the updatedAt of this update, and what it
    returns is that merged record or what the transform applied made of
    it.  In the merged record every key other than updatedAt holds the
    patch's value merged over the current one when the patch has the key,
    and the current value otherwise, so sibling keys are preserved;
    merging a value that is not a mapping (a scalar, an array) over
    anything gives that value; merging a mapping over a mapping follows
    the same key-by-key rule one level down; and a record whose field a
    is {x: 0, y: 2}, patched with {a: {x: 1}}, gets a equal to
    {x: 1, y: 2}. *)
Theorem updateAsset_merges_key_by_key filePath patch st c st1 :
  getAsset filePath st = (Ok (VObj c), st1) ->
  NoDup (keys c) ->
  NoDup (keys patch) ->
  let mergedRecord := Assets.merged (VObj c) patch (clock W (history st1)) in
  (exists key,
      getAssetConfigPath filePath = Ok key
      /\ updateAsset filePath patch st =
         (let! newAssetDetails := transformAsset transformers mergedRecord in
          let! _ := saveAsset (apiBaseUrl videoConfig) key newAssetDetails in
          ret newAssetDetails) (after EvNow st1))
  /\ (forall r st',
        updateAsset filePath patch st = (Ok r, st') ->
        r = mergedRecord
        \/ exists p name transform,
            member mergedRecord "provider" = Ok p
            /\ camelCase p = Returns name
            /\ (name, transform) ∈ transformers
            /\ transform mergedRecord = Returns r)
  /\ (forall k, k <> "updatedAt" ->
        own k (props mergedRecord) = merge_field (own k patch) (own k c))
  /\ (forall pv cv, is_object pv = false -> merge_value pv cv = pv)
  /\ (forall p' c' k, NoDup (keys p') ->
        own k (props (merge_value (VObj p') (VObj c')))
        = merge_field (own k p') (own k c'))
  /\ (own "a" c = Some (VObj [("x", VNum 0); ("y", VNum 2)]) ->
      patch = [("a", VObj [("x", VNum 1)])] ->
      own "a" (props mergedRecord)
      = Some (VObj [("x", VNum 1); ("y", VNum 2)])).
Proof.
  intros Hget Hc Hpatch mergedRecord.
  destruct (merge_key_by_key c patch (clock W (history st1)) Hc Hpatch)
    as (Hkeys & Hscalar & Hnested & Hexample).
  assert (Hsteps : exists key,
      getAssetConfigPath filePath = Ok key
      /\ updateAsset filePath patch st =
         (let! newAssetDetails := transformAsset transformers mergedRecord in
          let! _ := saveAsset (apiBaseUrl videoConfig) key newAssetDetails in
          ret newAssetDetails) (after EvNow st1)).
  { destruct (getAssetConfigPath filePath) as [key|e] eqn:Hkey.
    - exists key. split; [reflexivity|].
      rewrite updateAsset_steps, Hkey, Hget. reflexivity.
    - rewrite (getAsset_unresolved _ _ _ Hkey) in Hget. discriminate. }
  split; [exact Hsteps|]. split; [|auto].
  intros r st' Hupdate.
  apply updateAsset_success in Hupdate
    as (key & cur & st1' & st2 & _ & Hget' & _ & Htransform & _).
  rewrite Hget in Hget'. injection Hget' as <- <-.
  fold mergedRecord in Htransform.
  apply transformAsset_applied in Htransform
    as [[-> _]|(p & name & t & Hp & Hname & Hin & Ht & _)].
  - left. reflexivity.
  - right. exists p, name, t. auto.
Qed.

(** C10.  [updateAsset] never writes to the cache: after a successful
    update the cache is the one its own read of the current record left.
    So when the key was cached before the update, the cache is unchanged
    by it, the entry is still the record from before the update although
    a new record [r] was written to the store, and the next [getAsset]
    returns that old entry without asking the store. *)
Theorem updateAsset_leaves_cache_stale filePath assetDetails st r st' :
  updateAsset filePath assetDetails st = (Ok r, st') ->
  assetCache st' = assetCache (snd (getAsset filePath st))
  /\ (exists key,
        getAssetConfigPath filePath = Ok key
        /\ last (history st')
           = Some (EvFetch (POST (apiBaseUrl videoConfig) key r)))
  /\ (forall key cached,
        getAssetConfigPath filePath = Ok key ->
        assetCache st !! key = Some cached ->
        assetCache st' = assetCache st
        /\ assetCache st' !! key = Some cached
        /\ getAsset filePath st' = (Ok cached, st')).
Proof.
  intros Hupdate.
  pose proof (updateAsset_cache filePath assetDetails st) as Hcache.
  rewrite Hupdate in Hcache. simpl in Hcache. split; [exact Hcache|]. split.
  - apply updateAsset_success in Hupdate
      as (key & cur & st1 & st2 & Hkey & _ & _ & _ & ->).
    exists key. split; [exact Hkey|]. simpl. apply last_snoc.
  - intros key cached Hkey Hhit.
    rewrite (getAsset_resolved _ _ _ Hkey), (loadAsset_hit _ _ _ _ Hhit) in Hcache.
    simpl in Hcache. rewrite Hcache. split; [reflexivity|]. split; [exact Hhit|].
    rewrite (getAsset_resolved _ _ _ Hkey). apply loadAsset_hit.
    rewrite Hcache. exact Hhit.
Qed.

(** *** Creating *)

(** The steps of [createAsset]: resolve, read the clock twice, build the
    record, stat a local file, write. *)
Lemma createAsset_steps filePath assetDetails st :
  let original :=
    if isRemote filePath then filePath else path_relative cwd filePath in
  let record :=
    Assets.newAsset assetDetails original (provider videoConfig)
      (clock W (history st)) (clock W (history st ++ [EvNow])) in
  let st2 := after EvNow (after EvNow st) in
  let persist (key : string) (rec : object) : M value :=
    (let! _ := saveAsset (apiBaseUrl videoConfig) key (VObj rec) in
     ret (VObj rec)) in
  createAsset filePath assetDetails st =
  match getAssetConfigPath filePath with
  | Err e => (Err e, st)
  | Ok key =>
      if isRemote filePath then persist key record st2
      else
        match stat_reply W (history st2) filePath with
        | Returns size =>
            persist key (assign "size" (VNum size) record)
              (after (EvStat filePath) st2)
        | Throws _ => persist key record (after (EvStat filePath) st2)
        end
  end.
Proof.
  intros original record st2 persist.
  unfold Assets.createAsset, Assets.getVideoConfig.
  unfold bind at 1 2. unfold ret at 1. unfold lift at 1.
  destruct (getAssetConfigPath filePath) as [key|e]; [|reflexivity].
  unfold Assets.Date_now. unfold bind at 1. rewrite interact_run.
  unfold bind at 1. rewrite interact_run.
  subst original record st2 persist. simpl history.
  destruct (isRemote filePath); simpl negb; cbv iota.
  - reflexivity.
  - unfold bind at 1. unfold try_catch, Assets.stat. unfold bind at 1.
    rewrite interact_run. simpl history.
    destruct (stat_reply W _ filePath) as [size|what]; reflexivity.
Qed.

Lemma newAsset_fields assetDetails original prov createdAt updatedAt :
  let record := Assets.newAsset assetDetails original prov createdAt updatedAt in
  own "status" record
  = Some (default (VStr "pending") (own "status" (rev (default [] assetDetails))))
  /\ own "originalFilePath" record = Some (VStr original)
  /\ own "provider" record = Some (VStr prov)
  /\ own "providerMetadata" record = Some (VObj [])
  /\ own "createdAt" record = Some (VNum createdAt)
  /\ own "updatedAt" record = Some (VNum updatedAt)
  /\ own "size" record = own "size" (rev (default [] assetDetails)).
Proof.
  unfold Assets.newAsset. repeat split; rewrite ?own_assign; simpl;
    try reflexivity; rewrite own_spread; simpl.
  - destruct (own "status" (rev (default [] assetDetails))); reflexivity.
  - destruct (own "size" (rev (default [] assetDetails))); reflexivity.
Qed.

(** A successful [createAsset] returns the record it built, with the size
    of the file or without, and ended with the write of that record. *)
Lemma createAsset_success filePath assetDetails st r st' :
  createAsset filePath assetDetails st = (Ok r, st') ->
  let original :=
    if isRemote filePath then filePath else path_relative cwd filePath in
  let record :=
    Assets.newAsset assetDetails original (provider videoConfig)
      (clock W (history st)) (clock W (history st ++ [EvNow])) in
  exists key,
    getAssetConfigPath filePath = Ok key
    /\ (r = VObj record
        \/ exists size, isRemote filePath = false
                        /\ r = VObj (assign "size" (VNum size) record))
    /\ last (history st') = Some (EvFetch (POST (apiBaseUrl videoConfig) key r)).
Proof.
  intros Hcreate original record. rewrite createAsset_steps in Hcreate.
  fold original record in Hcreate.
  destruct (getAssetConfigPath filePath) as [key|e]; [|discriminate].
  exists key. split; [reflexivity|].
  assert (Hpersist : forall rec st3,
            (let! _ := saveAsset (apiBaseUrl videoConfig) key (VObj rec) in
             ret (VObj rec)) st3 = (Ok r, st') ->
            r = VObj rec
            /\ last (history st')
               = Some (EvFetch (POST (apiBaseUrl videoConfig) key r))).
  { intros rec st3. unfold bind. rewrite saveAsset_run.
    destruct (fetch_reply W (history st3) _) as [reply|what]; [|discriminate].
    destruct (ok reply); [|discriminate].
    unfold ret. intros Heq. injection Heq as <- <-.
    split; [reflexivity|]. simpl. apply last_snoc. }
  destruct (isRemote filePath).
  - apply Hpersist in Hcreate as [-> Hlast]. split; [left; reflexivity | exact Hlast].
  - destruct (stat_reply W _ filePath) as [size|what];
      apply Hpersist in Hcreate as [-> Hlast].
    + split; [right; exists size; split; reflexivity | exact Hlast].
    + split; [left; reflexivity | exact Hlast].
Qed.

(** C8.  The record a successful [createAsset] returns is the record it
    wrote to the store under the resolved key.  Its status is "pending"
    when overrides has no status, and the status overrides gives
    otherwise.  Whatever overrides holds: its originalFilePath is the
    reference made relative to the working directory for a local file and
    the reference itself for a remote one, its provider is the configured
    one, its providerMetadata is the empty mapping, its createdAt and
    updatedAt are the two readings of Date.now() taken in this call.  The
    cache is left as it was. *)
Theorem createAsset_record filePath (overrides : option object) st r st' :
  createAsset filePath overrides st = (Ok r, st') ->
  (own "status" (default [] overrides) = None ->
   member r "status" = Ok (VStr "pending"))
  /\ (forall v, NoDup (keys (default [] overrides)) ->
        own "status" (default [] overrides) = Some v ->
        member r "status" = Ok v)
  /\ member r "originalFilePath"
     = Ok (VStr (if isRemote filePath then filePath
                 else path_relative cwd filePath))
  /\ member r "provider" = Ok (VStr (provider videoConfig))
  /\ member r "providerMetadata" = Ok (VObj [])
  /\ member r "createdAt" = Ok (VNum (clock W (history st)))
  /\ member r "updatedAt" = Ok (VNum (clock W (history st ++ [EvNow])))
  /\ (exists key,
        getAssetConfigPath filePath = Ok key
        /\ last (history st')
           = Some (EvFetch (POST (apiBaseUrl videoConfig) key r)))
  /\ assetCache st' = assetCache st.
Proof.
  intros Hcreate.
  pose proof (createAsset_keeps filePath overrides st) as Hcache.
  rewrite Hcreate in Hcache. simpl in Hcache.
  apply createAsset_success in Hcreate as (key & Hkey & Hr & Hlast).
  set (record := Assets.newAsset overrides _ _ _ _) in Hr.
  destruct (newAsset_fields overrides
              (if isRemote filePath then filePath else path_relative cwd filePath)
              (provider videoConfig) (clock W (history st))
              (clock W (history st ++ [EvNow])))
    as (Hstatus & Horig & Hprov & Hmeta & Hcreated & Hupdated & _).
  fold record in Hstatus, Horig, Hprov, Hmeta, Hcreated, Hupdated.
  assert (Hfield : forall k, k <> "size" ->
            member r k = Ok (default VUndef (own k record))).
  { intros k Hk. destruct Hr as [->|(size & _ & ->)]; simpl; [reflexivity|].
    rewrite own_assign_ne by exact Hk. reflexivity. }
  repeat split.
  - intros Hnone. rewrite Hfield by discriminate. rewrite Hstatus.
    rewrite (own_rev_None _ _ Hnone). reflexivity.
  - intros v Hnd Hsome. rewrite Hfield by discriminate. rewrite Hstatus.
    rewrite (own_rev _ _ Hnd), Hsome. reflexivity.
  - rewrite Hfield by discriminate. rewrite Horig. reflexivity.
  - rewrite Hfield by discriminate. rewrite Hprov. reflexivity.
  - rewrite Hfield by discriminate. rewrite Hmeta. reflexivity.
  - rewrite Hfield by discriminate. rewrite Hcreated. reflexivity.
  - rewrite Hfield by discriminate. rewrite Hupdated. reflexivity.
  - exists key. split; assumption.
  - exact Hcache.
Qed.

(** *** Errors *)

Lemma saveAsset_fails base key asset st e :
  write_fails_with W e ->
  saveAsset base key asset st
  = (Err e, after (EvFetch (POST base key asset)) st).
Proof.
  intros Hfail. rewrite saveAsset_run.
  specialize (Hfail (history st) base key asset).
  destruct (fetch_reply W (history st) _) as [reply|what].
  - destruct Hfail as [-> ->]. reflexivity.
  - subst e. reflexivity.
Qed.

(** Every failure of a read that misses the cache is the caller's. *)
Lemma getAsset_errors filePath key st :
  getAssetConfigPath filePath = Ok key ->
  assetCache st !! key = None ->
  fst (getAsset filePath st)
  = read_outcome
      (fetch_reply W (history st) (GET (apiBaseUrl videoConfig ++ "/" ++ key))).
Proof.
  intros Hkey Hmiss.
  rewrite (getAsset_resolved _ _ _ Hkey), (loadAsset_miss _ _ _ Hmiss).
  unfold read_outcome.
  destruct (fetch_reply W (history st) _) as [r|what]; [|reflexivity].
  destruct (ok r); [|reflexivity].
  destruct (json r) as [asset|what]; simpl; [|reflexivity].
  destruct (member asset "status") as [sv|e]; simpl; [|reflexivity].
  destruct (loose_eq_str sv "ready") as [[|]|e]; reflexivity.
Qed.

Lemma createAsset_unresolved filePath overrides e st :
  getAssetConfigPath filePath = Err e ->
  createAsset filePath overrides st = (Err e, st).
Proof. intros Hkey. rewrite createAsset_steps, Hkey. reflexivity. Qed.

Lemma createAsset_write_fails filePath overrides key e st :
  getAssetConfigPath filePath = Ok key ->
  write_fails_with W e ->
  fst (createAsset filePath overrides st) = Err e.
Proof.
  intros Hkey Hfail. rewrite createAsset_steps, Hkey.
  destruct (isRemote filePath); [|destruct (stat_reply W _ filePath)];
    unfold bind; rewrite (saveAsset_fails _ _ _ _ _ Hfail); reflexivity.
Qed.

Lemma updateAsset_unresolved filePath assetDetails e st :
  getAssetConfigPath filePath = Err e ->
  updateAsset filePath assetDetails st = (Err e, st).
Proof. intros Hkey. rewrite updateAsset_steps, Hkey. reflexivity. Qed.

Lemma updateAsset_read_fails filePath assetDetails e st st1 :
  getAsset filePath st = (Err e, st1) ->
  updateAsset filePath assetDetails st = (Err e, st1).
Proof.
  intros Hget. rewrite updateAsset_steps, Hget.
  destruct (getAssetConfigPath filePath) as [key|e'] eqn:Hkey; [reflexivity|].
  rewrite (getAsset_unresolved _ _ _ Hkey) in Hget. congruence.
Qed.

Lemma updateAsset_after_read filePath assetDetails currentAsset st st1 :
  getAsset filePath st = (Ok currentAsset, st1) ->
  let mergedRecord :=
    Assets.merged currentAsset assetDetails (clock W (history st1)) in
  (truthy currentAsset = false ->
   updateAsset filePath assetDetails st = (Err (AssetNotFoundFor filePath), st1))
  /\ (truthy currentAsset = true ->
      (forall e st2,
          transformAsset transformers mergedRecord (after EvNow st1)
          = (Err e, st2) ->
          updateAsset filePath assetDetails st = (Err e, st2))
      /\ (forall new st2 e,
            transformAsset transformers mergedRecord (after EvNow st1)
            = (Ok new, st2) ->
            write_fails_with W e ->
            fst (updateAsset filePath assetDetails st) = Err e)).
Proof.
  intros Hget mergedRecord. rewrite updateAsset_steps, Hget.
  destruct (getAssetConfigPath filePath) as [key|e'] eqn:Hkey.
  - split; [intros ->; reflexivity|]. intros ->. fold mergedRecord. split.
    + intros e st2 Htransform. unfold bind at 1. rewrite Htransform. reflexivity.
    + intros new st2 e Htransform Hfail. unfold bind at 1. rewrite Htransform.
      unfold bind. rewrite (saveAsset_fails _ _ _ _ _ Hfail). reflexivity.
  - rewrite (getAsset_unresolved _ _ _ Hkey) in Hget. discriminate.
Qed.

(** The failures of the dispatcher are those of camelCase and of the
    transform it calls. *)
Lemma transformAsset_errors asset p st :
  member asset "provider" = Ok p ->
  truthy p = true ->
  (forall what, camelCase p = Throws what -> transformers <> [] ->
     transformAsset transformers asset st = (Err (Foreign what), st))
  /\ (forall name transform what,
        camelCase p = Returns name ->
        NoDup (keys transformers) ->
        (name, transform) ∈ transformers ->
        transform asset = Throws what ->
        fst (transformAsset transformers asset st) = Err (Foreign what)).
Proof.
  intros Hp Htruthy.
  assert (Hstep : transformAsset transformers asset st
                  = dispatch transformers p asset st).
  { unfold Assets.transformAsset, bind, lift. rewrite Hp, Htruthy. reflexivity. }
  rewrite Hstep. split.
  - intros what Hthrows Hne. destruct transformers as [|[key t] rest];
      [contradiction|]. simpl. unfold bind, lift. rewrite Hthrows. reflexivity.
  - intros name transform what Hname Hnd Hin Hthrows.
    rewrite (dispatch_found _ _ _ _ _ _ Hname Hnd Hin), Hthrows. reflexivity.
Qed.

(** A write, reply by reply. *)
Lemma persist_outcome base key (asset : value) st :
  let write := POST base key asset in
  (let! _ := saveAsset base key asset in ret asset) st
  = (write_outcome (fetch_reply W (history st) write) asset,
     after (EvFetch write) st).
Proof.
  intros write. unfold bind. rewrite saveAsset_run. fold write.
  unfold write_outcome.
  destruct (fetch_reply W (history st) write) as [reply|what]; [|reflexivity].
  destruct (ok reply); reflexivity.
Qed.

(** What [createAsset] does once the key is resolved: the record and the
    state the stat leaves, and then the one write and its outcome. *)
Lemma createAsset_outcome filePath (overrides : option object) key st :
  getAssetConfigPath filePath = Ok key ->
  let record :=
    Assets.newAsset overrides
      (if isRemote filePath then filePath else path_relative cwd filePath)
      (provider videoConfig)
      (clock W (history st)) (clock W (history st ++ [EvNow])) in
  let st2 := after EvNow (after EvNow st) in
  forall rec st3,
    (rec, st3)
    = (if isRemote filePath then (record, st2)
       else
         match stat_reply W (history st2) filePath with
         | Returns size =>
             (assign "size" (VNum size) record, after (EvStat filePath) st2)
         | Throws _ => (record, after (EvStat filePath) st2)
         end) ->
    let write := POST (apiBaseUrl videoConfig) key (VObj rec) in
    createAsset filePath overrides st
    = (write_outcome (fetch_reply W (history st3) write) (VObj rec),
       after (EvFetch write) st3).
Proof.
  intros Hkey record st2 rec st3 Hrec write.
  rewrite createAsset_steps, Hkey. fold record st2.
  destruct (isRemote filePath); [|destruct (stat_reply W _ filePath)];
    injection Hrec as -> ->; apply persist_outcome.
Qed.

Lemma updateAsset_write_outcome
    filePath assetDetails key currentAsset st st1 new st2 :
  getAssetConfigPath filePath = Ok key ->
  getAsset filePath st = (Ok currentAsset, st1) ->
  truthy currentAsset = true ->
  transformAsset transformers
    (Assets.merged currentAsset assetDetails (clock W (history st1)))
    (after EvNow st1) = (Ok new, st2) ->
  let write := POST (apiBaseUrl videoConfig) key new in
  updateAsset filePath assetDetails st
  = (write_outcome (fetch_reply W (history st2) write) new,
     after (EvFetch write) st2).
Proof.
  intros Hkey Hget Htruthy Htransform write.
  rewrite updateAsset_steps, Hkey, Hget, Htruthy.
  unfold bind at 1. rewrite Htransform. apply persist_outcome.
Qed.

(** C9, as the code has it.  In [createAsset] on a local file whose stat
    fails, the failure is swallowed: the call goes on to write the record
    built before the stat, and returns it when the store accepts it.  That
    record carries no size from the file: its size field is the one of
    overrides, absent when overrides has none.  For a remote reference no
    stat is made.  Every other failure is the caller's, as it arose: of
    the key resolution in all three operations; of the read in [getAsset]
    and [updateAsset] (a rejected request, a response that is not ok, a
    body that does not parse or is null); of a current record that is
    missing; of the dispatcher; and of the one write each of [createAsset]
    and [updateAsset] sends, whose reply alone decides between the record
    and the error. *)
Theorem stat_failure_swallowed_other_errors_propagate
    filePath (overrides : option object) assetDetails st :
  (isRemote filePath = false ->
   forall what,
     stat_reply W (history st ++ [EvNow; EvNow]) filePath = Throws what ->
     let record :=
       Assets.newAsset overrides (path_relative cwd filePath)
         (provider videoConfig)
         (clock W (history st)) (clock W (history st ++ [EvNow])) in
     let key := filePath ++ ".json" in
     let write := POST (apiBaseUrl videoConfig) key (VObj record) in
     createAsset filePath overrides st
     = (let! _ := saveAsset (apiBaseUrl videoConfig) key (VObj record) in
        ret (VObj record))
         (after (EvStat filePath) (after EvNow (after EvNow st)))
     /\ (forall reply,
           fetch_reply W (history st ++ [EvNow; EvNow; EvStat filePath]) write
           = Returns reply ->
           ok reply = true ->
           fst (createAsset filePath overrides st) = Ok (VObj record))
     /\ (own "size" (default [] overrides) = None -> own "size" record = None)
     /\ (NoDup (keys (default [] overrides)) ->
         own "size" record = own "size" (default [] overrides)))
  /\ (isRemote filePath = true ->
      forall path,
        EvStat path ∈ history (snd (createAsset filePath overrides st)) ->
        EvStat path ∈ history st)
  /\ (forall e,
        getAssetConfigPath filePath = Err e ->
        getAsset filePath st = (Err e, st)
        /\ createAsset filePath overrides st = (Err e, st)
        /\ updateAsset filePath assetDetails st = (Err e, st))
  /\ (forall key,
        getAssetConfigPath filePath = Ok key ->
        (assetCache st !! key = None ->
         fst (getAsset filePath st)
         = read_outcome
             (fetch_reply W (history st)
                (GET (apiBaseUrl videoConfig ++ "/" ++ key))))
        /\ (let record :=
              Assets.newAsset overrides
                (if isRemote filePath then filePath
                 else path_relative cwd filePath)
                (provider videoConfig)
                (clock W (history st)) (clock W (history st ++ [EvNow])) in
            let st2 := after EvNow (after EvNow st) in
            forall rec st3,
              (rec, st3)
              = (if isRemote filePath then (record, st2)
                 else
                   match stat_reply W (history st2) filePath with
                   | Returns size =>
                       (assign "size" (VNum size) record,
                        after (EvStat filePath) st2)
                   | Throws _ => (record, after (EvStat filePath) st2)
                   end) ->
              let write := POST (apiBaseUrl videoConfig) key (VObj rec) in
              createAsset filePath overrides st
              = (write_outcome (fetch_reply W (history st3) write) (VObj rec),
                 after (EvFetch write) st3)))
  /\ (forall e st1,
        getAsset filePath st = (Err e, st1) ->
        updateAsset filePath assetDetails st = (Err e, st1))
  /\ (forall currentAsset st1,
        getAsset filePath st = (Ok currentAsset, st1) ->
        let mergedRecord :=
          Assets.merged currentAsset assetDetails (clock W (history st1)) in
        (truthy currentAsset = false ->
         updateAsset filePath assetDetails st
         = (Err (AssetNotFoundFor filePath), st1))
        /\ (truthy currentAsset = true ->
            (forall e st2,
                transformAsset transformers mergedRecord (after EvNow st1)
                = (Err e, st2) ->
                updateAsset filePath assetDetails st = (Err e, st2))
            /\ (forall new st2 key,
                  transformAsset transformers mergedRecord (after EvNow st1)
                  = (Ok new, st2) ->
                  getAssetConfigPath filePath = Ok key ->
                  let write := POST (apiBaseUrl videoConfig) key new in
                  updateAsset filePath assetDetails st
                  = (write_outcome (fetch_reply W (history st2) write) new,
                     after (EvFetch write) st2)))).
Proof.
  split; [|split; [|split; [|split; [|split]]]].
  - intros Hlocal what Hstat record key write.
    assert (Hsteps : createAsset filePath overrides st
              = (let! _ := saveAsset (apiBaseUrl videoConfig) key (VObj record) in
                 ret (VObj record))
                  (after (EvStat filePath) (after EvNow (after EvNow st)))).
    { rewrite createAsset_steps, (getAssetConfigPath_local _ Hlocal), Hlocal.
      simpl history. rewrite <- !app_assoc. simpl app. rewrite Hstat.
      reflexivity. }
    split; [exact Hsteps|]. split; [|split].
    + intros reply Hreply Hok. rewrite Hsteps. unfold bind.
      rewrite saveAsset_run. simpl history. rewrite <- !app_assoc. simpl app.
      fold write. rewrite Hreply, Hok. reflexivity.
    + intros Hnone.
      destruct (newAsset_fields overrides (path_relative cwd filePath)
                  (provider videoConfig) (clock W (history st))
                  (clock W (history st ++ [EvNow]))) as (_&_&_&_&_&_&Hsize).
      fold record in Hsize. rewrite Hsize. apply own_rev_None, Hnone.
    + intros Hnd.
      destruct (newAsset_fields overrides (path_relative cwd filePath)
                  (provider videoConfig) (clock W (history st))
                  (clock W (history st ++ [EvNow]))) as (_&_&_&_&_&_&Hsize).
      fold record in Hsize. rewrite Hsize. apply own_rev, Hnd.
  - intros Hremote path. rewrite createAsset_steps, Hremote.
    destruct (getAssetConfigPath filePath) as [key|e]; [|auto].
    unfold bind. rewrite saveAsset_run.
    destruct (fetch_reply W _ _) as [reply|what]; [destruct (ok reply)|];
      simpl; rewrite !elem_of_app, !list_elem_of_singleton;
      intros [[[H|H]|H]|H]; try discriminate; exact H.
  - intros e Hkey. split; [|split].
    + apply getAsset_unresolved, Hkey.
    + apply createAsset_unresolved, Hkey.
    + apply updateAsset_unresolved, Hkey.
  - intros key Hkey. split.
    + intros Hmiss. apply getAsset_errors; assumption.
    + apply createAsset_outcome, Hkey.
  - intros e st1. apply updateAsset_read_fails.
  - intros currentAsset st1 Hget mergedRecord.
    destruct (updateAsset_after_read filePath assetDetails currentAsset st st1
                Hget) as [Hmissing Hpresent].
    split; [exact Hmissing|]. intros Htruthy. split.
    + apply (Hpresent Htruthy).
    + intros new st2 key Htransform Hkey.
      eapply updateAsset_write_outcome; eassumption.
Qed.

(** *** The cache only grows, and only by records that passed the test *)

Lemma extends_refl P st : extends P st st.
Proof. split; [reflexivity | auto]. Qed.

Lemma extends_trans P st1 st2 st3 :
  extends P st1 st2 -> extends P st2 st3 -> extends P st1 st3.
Proof.
  intros [Hsub12 Hnew12] [Hsub23 Hnew23]. split.
  - etransitivity; eassumption.
  - intros key asset H3.
    destruct (Hnew23 _ _ H3) as [H2|HP]; [|right; exact HP].
    apply Hnew12, H2.
Qed.

Lemma extends_same_cache P st st' :
  assetCache st' = assetCache st -> extends P st st'.
Proof. intros Heq. unfold extends. rewrite Heq. split; [reflexivity | auto]. Qed.

(** A record enters the cache only on the path through the test of
    assets.ts:67, and only under a key that was free. *)
Lemma loadAsset_extends (P : value -> Prop) base key st :
  (forall r asset sv,
      fetch_reply W (history st) (GET (base ++ "/" ++ key)) = Returns r ->
      json r = Returns asset ->
      member asset "status" = Ok sv ->
      loose_eq_str sv "ready" = Ok true ->
      P asset) ->
  extends P st (snd (loadAsset base key st)).
Proof.
  intros HP.
  destruct (assetCache st !! key) as [cached|] eqn:Hlook.
  - rewrite (loadAsset_hit _ _ _ _ Hlook). apply extends_refl.
  - rewrite (loadAsset_miss _ _ _ Hlook).
    destruct (fetch_reply W (history st) _) as [r|what] eqn:Hfetch;
      [|apply extends_same_cache; reflexivity].
    destruct (ok r); [|apply extends_same_cache; reflexivity].
    destruct (json r) as [asset|what] eqn:Hjson;
      [|apply extends_same_cache; reflexivity].
    destruct (member asset "status") as [sv|e] eqn:Hstatus;
      [|apply extends_same_cache; reflexivity].
    destruct (loose_eq_str sv "ready") as [[|]|e] eqn:Hready;
      try (apply extends_same_cache; reflexivity).
    split; simpl.
    + apply insert_subseteq, Hlook.
    + intros key' asset' Hlook'.
      destruct (decide (key = key')) as [<-|Hne].
      * rewrite lookup_insert_eq in Hlook'. injection Hlook' as <-.
        right. eapply HP; eauto.
      * rewrite lookup_insert_ne in Hlook' by exact Hne. left. exact Hlook'.
Qed.

Lemma getAsset_extends (P : value -> Prop) filePath st :
  (forall h url r asset sv,
      fetch_reply W h (GET url) = Returns r ->
      json r = Returns asset ->
      member asset "status" = Ok sv ->
      loose_eq_str sv "ready" = Ok true ->
      P asset) ->
  extends P st (snd (getAsset filePath st)).
Proof.
  intros HP.
  destruct (getAssetConfigPath filePath) as [key|e] eqn:Hkey.
  - rewrite (getAsset_resolved _ _ _ Hkey). apply loadAsset_extends. eauto.
  - rewrite (getAsset_unresolved _ _ _ Hkey). apply extends_refl.
Qed.

Lemma step_extends (P : value -> Prop) o st :
  (forall h url r asset sv,
      fetch_reply W h (GET url) = Returns r ->
      json r = Returns asset ->
      member asset "status" = Ok sv ->
      loose_eq_str sv "ready" = Ok true ->
      P asset) ->
  extends P st (step st o).
Proof.
  intros HP. destruct o as [filePath|filePath assetDetails|filePath assetDetails];
    simpl.
  - apply getAsset_extends, HP.
  - apply extends_same_cache, createAsset_keeps.
  - eapply extends_trans; [apply (getAsset_extends P filePath st HP)|].
    apply extends_same_cache, updateAsset_cache.
Qed.

Lemma run_extends (P : value -> Prop) ops st :
  (forall h url r asset sv,
      fetch_reply W h (GET url) = Returns r ->
      json r = Returns asset ->
      member asset "status" = Ok sv ->
      loose_eq_str sv "ready" = Ok true ->
      P asset) ->
  extends P st (run ops st).
Proof.
  intros HP. revert st. induction ops as [|o ops IH]; intros st; simpl.
  - apply extends_refl.
  - eapply extends_trans; [apply (step_extends P o st HP) | apply IH].
Qed.

(** Whatever the store sends, the cached records are those that passed
    the test [asset.status == "ready"]. *)
Lemma cache_loosely_ready ops key asset :
  assetCache (run ops initial) !! key = Some asset -> loosely_ready asset.
Proof.
  intros Hlook.
  destruct (run_extends loosely_ready ops initial) as [_ Hnew].
  - intros h url r a sv _ _ Hstatus Hready. exists sv. split; assumption.
  - destruct (Hnew _ _ Hlook) as [Hinit|Hready]; [|exact Hready].
    simpl in Hinit. rewrite lookup_empty in Hinit. discriminate.
Qed.

(** C2.  Start from the empty cache of a freshly loaded module and let
    the store answer with records typed as the Asset interface declares.
    After any sequence of getAsset, createAsset and updateAsset calls,
    returning or throwing, every cached record has status "ready"; and
    whatever calls follow, the cache still holds each of these entries
    unchanged: nothing is evicted, removed or overwritten. *)
Theorem cache_invariant ops more :
  typed_store W ->
  all_ready (assetCache (run ops initial))
  /\ assetCache (run ops initial) ⊆ assetCache (run (ops ++ more) initial).
Proof.
  intros Htyped.
  assert (HP : forall h url r asset sv,
             fetch_reply W h (GET url) = Returns r ->
             json r = Returns asset ->
             member asset "status" = Ok sv ->
             loose_eq_str sv "ready" = Ok true ->
             ready asset).
  { intros h url r asset sv Hfetch Hjson Hstatus Hready.
    pose proof (Htyped _ _ _ _ _ Hfetch Hjson Hstatus) as Hprim.
    rewrite (loose_eq_str_primitive _ _ Hprim) in Hready.
    injection Hready as Hready. apply is_string_true in Hready.
    unfold ready. congruence. }
  split.
  - intros key asset Hlook.
    destruct (run_extends ready ops initial HP) as [_ Hnew].
    destruct (Hnew _ _ Hlook) as [Hinit|Hready]; [|exact Hready].
    simpl in Hinit. rewrite lookup_empty in Hinit. discriminate.
  - unfold Assets.run. rewrite fold_left_app.
    apply (run_extends ready more _ HP).
Qed.

(** *** Reading twice *)

(** What a read leaves behind, outcome by outcome of [read_outcome]. *)
Lemma loadAsset_miss_state base key st :
  assetCache st !! key = None ->
  let read := EvFetch (GET (base ++ "/" ++ key)) in
  snd (loadAsset base key st) = after read st
  \/ exists asset,
       loadAsset base key st = (Ok asset, cached_after read key asset st)
       /\ loosely_ready asset.
Proof.
  intros Hmiss read. rewrite (loadAsset_miss _ _ _ Hmiss). fold read.
  destruct (fetch_reply W (history st) _) as [r|what]; [|left; reflexivity].
  destruct (ok r); [|left; reflexivity].
  destruct (json r) as [asset|what]; [|left; reflexivity].
  destruct (member asset "status") as [sv|e] eqn:Hstatus; [|left; reflexivity].
  destruct (loose_eq_str sv "ready") as [[|]|e] eqn:Hready;
    try (left; reflexivity).
  right. exists asset. split; [reflexivity|]. exists sv. split; assumption.
Qed.

(** X1.  Once [getAsset] has returned a record whose status is "ready",
    asking again gives the same record from the same state: the store is
    not asked, whatever it would answer now. *)
Theorem getAsset_memoizes_ready filePath asset st st1 :
  getAsset filePath st = (Ok asset, st1) ->
  ready asset ->
  getAsset filePath st1 = (Ok asset, st1).
Proof.
  intros Hget Hready.
  destruct (getAssetConfigPath filePath) as [key|e] eqn:Hkey;
    [|rewrite (getAsset_unresolved _ _ _ Hkey) in Hget; discriminate].
  rewrite (getAsset_resolved _ _ st Hkey) in Hget.
  rewrite (getAsset_resolved _ _ st1 Hkey).
  destruct (assetCache st !! key) as [cached|] eqn:Hlook.
  - rewrite (loadAsset_hit _ _ _ _ Hlook) in Hget. injection Hget as <- <-.
    apply loadAsset_hit, Hlook.
  - rewrite (loadAsset_miss _ _ _ Hlook) in Hget.
    destruct (fetch_reply W (history st) _) as [r|what]; [|discriminate].
    destruct (ok r); [|discriminate].
    destruct (json r) as [body|what]; [|discriminate].
    destruct (member body "status") as [sv|e] eqn:Hstatus; [|discriminate].
    destruct (loose_eq_str sv "ready") as [[|]|e] eqn:Hloose; [| |discriminate].
    + injection Hget as <- <-. apply loadAsset_hit. simpl.
      apply lookup_insert_eq.
    + injection Hget as <- <-. unfold ready in Hready.
      rewrite Hready in Hstatus. injection Hstatus as <-. discriminate.
Qed.

(** X2.  A record that was read from the store with a status other than
    "ready" is not remembered: the key is still absent from the cache, the
    next [getAsset] asks the store again, and its outcome is whatever the
    store answers then. *)
Theorem getAsset_refetches_unready filePath key asset sv st st1 :
  getAssetConfigPath filePath = Ok key ->
  assetCache st !! key = None ->
  getAsset filePath st = (Ok asset, st1) ->
  member asset "status" = Ok sv ->
  primitive sv = true ->
  sv <> VStr "ready" ->
  let url := apiBaseUrl videoConfig ++ "/" ++ key in
  assetCache st1 !! key = None
  /\ history (snd (getAsset filePath st1))
     = (history st ++ [EvFetch (GET url); EvFetch (GET url)])%list
  /\ fst (getAsset filePath st1)
     = read_outcome (fetch_reply W (history st1) (GET url)).
Proof.
  intros Hkey Hmiss Hget Hstatus Hprim Hne url.
  assert (Hst1 : st1 = after (EvFetch (GET url)) st).
  { rewrite (getAsset_resolved _ _ _ Hkey), (loadAsset_miss _ _ _ Hmiss) in Hget.
    fold url in Hget.
    destruct (fetch_reply W (history st) _) as [r|what]; [|discriminate].
    destruct (ok r); [|discriminate].
    destruct (json r) as [body|what]; [|discriminate].
    destruct (member body "status") as [sv'|e] eqn:Hstatus'; [|discriminate].
    destruct (loose_eq_str sv' "ready") as [[|]|e] eqn:Hloose; [| |discriminate].
    - injection Hget as <- <-. rewrite Hstatus in Hstatus'.
      injection Hstatus' as <-.
      rewrite (loose_eq_str_primitive _ _ Hprim) in Hloose.
      injection Hloose as Hloose. apply is_string_true in Hloose. contradiction.
    - injection Hget as <- <-. reflexivity. }
  assert (Hmiss1 : assetCache st1 !! key = None) by (subst st1; exact Hmiss).
  split; [exact Hmiss1|]. split.
  - rewrite (getAsset_resolved _ _ _ Hkey).
    destruct (loadAsset_miss_state (apiBaseUrl videoConfig) key st1 Hmiss1)
      as [Hstate|(body & Hload & _)].
    + rewrite Hstate. subst st1. simpl. rewrite <- app_assoc. reflexivity.
    + rewrite Hload. subst st1. simpl. rewrite <- app_assoc. reflexivity.
  - apply getAsset_errors; assumption.
Qed.

(** X3.  A [getAsset] that throws leaves the cache as it was. *)
Theorem getAsset_failure_keeps_cache filePath e st st1 :
  getAsset filePath st = (Err e, st1) ->
  assetCache st1 = assetCache st.
Proof.
  intros Hget.
  destruct (getAssetConfigPath filePath) as [key|e'] eqn:Hkey.
  - rewrite (getAsset_resolved _ _ _ Hkey) in Hget.
    destruct (assetCache st !! key) as [cached|] eqn:Hlook.
    + rewrite (loadAsset_hit _ _ _ _ Hlook) in Hget. discriminate.
    + destruct (loadAsset_miss_state (apiBaseUrl videoConfig) key st Hlook)
        as [Hstate|(body & Hload & _)].
      * rewrite Hget in Hstate. simpl in Hstate. subst st1. reflexivity.
      * rewrite Hload in Hget. discriminate.
  - rewrite (getAsset_unresolved _ _ _ Hkey) in Hget. injection Hget as _ <-.
    reflexivity.
Qed.

(** X4.  Bodies that are not records.  When the store answers a read with
    the JSON text null, [getAsset] throws a TypeError (reading [status] of
    null) instead of returning; any other body that is not an object (a
    number, a string, a boolean, an array) is returned as the asset and is
    not cached. *)
Theorem getAsset_body_not_a_record filePath key r body st :
  getAssetConfigPath filePath = Ok key ->
  assetCache st !! key = None ->
  let url := apiBaseUrl videoConfig ++ "/" ++ key in
  fetch_reply W (history st) (GET url) = Returns r ->
  ok r = true ->
  json r = Returns body ->
  (body = VNull ->
   exists what,
     getAsset filePath st = (Err (TypeError what), after (EvFetch (GET url)) st))
  /\ (is_object body = false -> body <> VNull -> body <> VUndef ->
      getAsset filePath st = (Ok body, after (EvFetch (GET url)) st)).
Proof.
  intros Hkey Hmiss url Hfetch Hok Hjson.
  rewrite (getAsset_resolved _ _ _ Hkey), (loadAsset_miss _ _ _ Hmiss).
  fold url. rewrite Hfetch, Hok, Hjson. split.
  - intros ->. simpl. eexists. reflexivity.
  - intros Hobj Hnull Hundef. destruct body; try discriminate; try contradiction;
      reflexivity.
Qed.

(** *** Updating a cached record *)

(** X5.  When the key is cached, [updateAsset] does not ask the store for
    the current record: it merges the patch over the cached record and
    goes on to transform and write.  As the update leaves the cache alone,
    a second update starts from the same cached record again, so what the
    first update wrote does not enter the second one's merge. *)
Theorem updateAsset_merges_over_cached filePath key cached assetDetails st :
  getAssetConfigPath filePath = Ok key ->
  assetCache st !! key = Some cached ->
  truthy cached = true ->
  let update (patch : object) (s : state) :=
    (let! newAssetDetails :=
       transformAsset transformers
         (Assets.merged cached patch (clock W (history s))) in
     let! _ := saveAsset (apiBaseUrl videoConfig) key newAssetDetails in
     ret newAssetDetails) (after EvNow s) in
  updateAsset filePath assetDetails st = update assetDetails st
  /\ forall first r1 st1,
      updateAsset filePath first st = (Ok r1, st1) ->
      updateAsset filePath assetDetails st1 = update assetDetails st1.
Proof.
  intros Hkey Hhit Htruthy update.
  assert (Hany : forall patch s,
            assetCache s !! key = Some cached ->
            updateAsset filePath patch s = update patch s).
  { intros patch s Hs.
    rewrite updateAsset_steps, Hkey, (getAsset_resolved _ _ _ Hkey),
      (loadAsset_hit _ _ _ _ Hs), Htruthy. reflexivity. }
  split; [apply Hany, Hhit|].
  intros first r1 st1 Hfirst. apply Hany.
  pose proof (updateAsset_cache filePath first st) as Hcache.
  rewrite Hfirst, (getAsset_resolved _ _ _ Hkey), (loadAsset_hit _ _ _ _ Hhit)
    in Hcache.
  simpl in Hcache. rewrite Hcache. exact Hhit.
Qed.

Lemma getAsset_history filePath key st :
  getAssetConfigPath filePath = Ok key ->
  let read := EvFetch (GET (apiBaseUrl videoConfig ++ "/" ++ key)) in
  history (snd (getAsset filePath st)) = history st
  \/ history (snd (getAsset filePath st)) = (history st ++ [read])%list.
Proof.
  intros Hkey read. rewrite (getAsset_resolved _ _ _ Hkey).
  destruct (assetCache st !! key) as [cached|] eqn:Hlook.
  - rewrite (loadAsset_hit _ _ _ _ Hlook). left. reflexivity.
  - right.
    destruct (loadAsset_miss_state (apiBaseUrl videoConfig) key st Hlook)
      as [Hstate|(body & Hload & _)].
    + rewrite Hstate. reflexivity.
    + rewrite Hload. reflexivity.
Qed.

(** X6.  The requests of a successful [updateAsset], in order: at most one
    read of the store (none when the key is cached), one reading of the
    clock, at most one transform call, and last the one write, which
    carries the returned record. *)
Theorem updateAsset_effects_in_order filePath assetDetails st r st' :
  updateAsset filePath assetDetails st = (Ok r, st') ->
  exists key reads calls,
    getAssetConfigPath filePath = Ok key
    /\ history st'
       = (history st ++ reads ++ [EvNow] ++ calls
          ++ [EvFetch (POST (apiBaseUrl videoConfig) key r)])%list
    /\ (reads = []
        \/ reads = [EvFetch (GET (apiBaseUrl videoConfig ++ "/" ++ key))])
    /\ (calls = [] \/ exists name, calls = [EvTransform name]).
Proof.
  intros Hupdate.
  apply updateAsset_success in Hupdate
    as (key & cur & st1 & st2 & Hkey & Hget & _ & Htransform & ->).
  exists key.
  assert (Hreads : exists reads,
             history st1 = (history st ++ reads)%list
             /\ (reads = []
                 \/ reads
                    = [EvFetch (GET (apiBaseUrl videoConfig ++ "/" ++ key))])).
  { destruct (getAsset_history filePath key st Hkey) as [H|H];
      rewrite Hget in H; simpl in H.
    - exists []. rewrite app_nil_r. auto.
    - eexists. split; [exact H | right; reflexivity]. }
  destruct Hreads as (reads & Hreads & Hshape).
  assert (Hcalls : exists calls,
             history st2 = (history st1 ++ [EvNow] ++ calls)%list
             /\ (calls = [] \/ exists name, calls = [EvTransform name])).
  { destruct (transformAsset_once transformers
                (Assets.merged cur assetDetails (clock W (history st1)))
                (after EvNow st1)) as [H|[[e H]|(name & t & _ & H)]];
      rewrite H in Htransform.
    - injection Htransform as _ <-. exists []. simpl. auto.
    - discriminate.
    - injection Htransform as _ <-. exists [EvTransform name]. simpl.
      rewrite <- app_assoc. eauto. }
  destruct Hcalls as (calls & Hcalls & Hshape').
  exists reads, calls. split; [exact Hkey|]. split; [|auto].
  simpl history. rewrite Hcalls, Hreads. rewrite <- !app_assoc. reflexivity.
Qed.

(** *** Creating: requests, size, timestamps *)

(** X7.  Whenever the key resolves, [createAsset] reads the clock twice,
    stats the file when the reference is local, and then sends exactly one
    write, whether the store accepts it or not.  It never reads the store:
    an existing record under the key is neither looked at nor merged. *)
Theorem createAsset_effects_in_order filePath (overrides : option object) key st :
  getAssetConfigPath filePath = Ok key ->
  (exists record,
      history (snd (createAsset filePath overrides st))
      = (history st ++ [EvNow; EvNow]
         ++ (if isRemote filePath then [] else [EvStat filePath])
         ++ [EvFetch (POST (apiBaseUrl videoConfig) key (VObj record))])%list)
  /\ forall url,
      EvFetch (GET url) ∈ history (snd (createAsset filePath overrides st)) ->
      EvFetch (GET url) ∈ history st.
Proof.
  intros Hkey.
  assert (Hshape : exists record,
      history (snd (createAsset filePath overrides st))
      = (history st ++ [EvNow; EvNow]
         ++ (if isRemote filePath then [] else [EvStat filePath])
         ++ [EvFetch (POST (apiBaseUrl videoConfig) key (VObj record))])%list).
  { rewrite createAsset_steps, Hkey.
    assert (Hpersist : forall rec st3,
              history
                (snd ((let! _ := saveAsset (apiBaseUrl videoConfig) key (VObj rec) in
                       ret (VObj rec)) st3))
              = (history st3
                 ++ [EvFetch (POST (apiBaseUrl videoConfig) key (VObj rec))])%list).
    { intros rec st3. unfold bind. rewrite saveAsset_run.
      destruct (fetch_reply W (history st3) _) as [reply|what];
        [destruct (ok reply)|]; reflexivity. }
    destruct (isRemote filePath); [|destruct (stat_reply W _ filePath)];
      eexists; rewrite Hpersist; simpl; rewrite <- !app_assoc; reflexivity. }
  split; [exact Hshape|].
  destruct Hshape as [record ->]. intros url.
  rewrite !elem_of_app. intros [H|[H|[H|H]]]; [exact H| | |].
  - repeat (apply elem_of_cons in H as [H|H]; [discriminate|]). inversion H.
  - destruct (isRemote filePath); [inversion H|].
    apply list_elem_of_singleton in H. discriminate.
  - apply list_elem_of_singleton in H. discriminate.
Qed.

(** X8.  For a local file whose stat succeeds, the size of the record that
    [createAsset] returns is the size of the file, whatever size overrides
    gives. *)
Theorem createAsset_size_is_file_size
    filePath (overrides : option object) size st r st' :
  isRemote filePath = false ->
  stat_reply W (history st ++ [EvNow; EvNow]) filePath = Returns size ->
  createAsset filePath overrides st = (Ok r, st') ->
  member r "size" = Ok (VNum size).
Proof.
  intros Hlocal Hstat Hcreate.
  rewrite createAsset_steps, (getAssetConfigPath_local _ Hlocal), Hlocal
    in Hcreate.
  simpl history in Hcreate. rewrite <- !app_assoc in Hcreate.
  simpl app in Hcreate. rewrite Hstat in Hcreate.
  unfold bind in Hcreate. rewrite saveAsset_run in Hcreate.
  destruct (fetch_reply W _ _) as [reply|what]; [|discriminate].
  destruct (ok reply); [|discriminate].
  injection Hcreate as <- _. simpl. rewrite own_assign_eq. reflexivity.
Qed.

(** X9.  The createdAt of the record [createAsset] returns is the reading
    of the clock taken first, at the history the call starts from, and
    its updatedAt is the next reading, taken once the first is recorded:
    two readings, not one.  With a clock that does not run backwards,
    createdAt is therefore no later than updatedAt. *)
Theorem createAsset_timestamps_ordered
    filePath (overrides : option object) st r st' :
  monotone_clock W ->
  createAsset filePath overrides st = (Ok r, st') ->
  member r "createdAt" = Ok (VNum (clock W (history st)))
  /\ member r "updatedAt" = Ok (VNum (clock W (history st ++ [EvNow])))
  /\ clock W (history st) <= clock W (history st ++ [EvNow]).
Proof.
  intros Hclock Hcreate.
  apply createAsset_success in Hcreate as (key & _ & Hr & _).
  destruct (newAsset_fields overrides
              (if isRemote filePath then filePath else path_relative cwd filePath)
              (provider videoConfig) (clock W (history st))
              (clock W (history st ++ [EvNow])))
    as (_ & _ & _ & _ & Hcreated & Hupdated & _).
  destruct Hr as [->|(size & _ & ->)]; simpl.
  - rewrite Hcreated, Hupdated. auto.
  - rewrite !own_assign_ne by discriminate. rewrite Hcreated, Hupdated. auto.
Qed.

(** X10.  A created record is not remembered, not even one created with
    status "ready": if the key was not cached before [createAsset], the
    next [getAsset] asks the store, and its outcome is the store's answer
    at that time. *)
Theorem createAsset_then_getAsset_asks_store
    filePath key (overrides : option object) st r st' :
  getAssetConfigPath filePath = Ok key ->
  assetCache st !! key = None ->
  createAsset filePath overrides st = (Ok r, st') ->
  let url := apiBaseUrl videoConfig ++ "/" ++ key in
  history (snd (getAsset filePath st'))
  = (history st' ++ [EvFetch (GET url)])%list
  /\ fst (getAsset filePath st')
     = read_outcome (fetch_reply W (history st') (GET url)).
Proof.
  intros Hkey Hmiss Hcreate url.
  pose proof (createAsset_keeps filePath overrides st) as Hcache.
  rewrite Hcreate in Hcache. simpl in Hcache.
  assert (Hmiss' : assetCache st' !! key = None) by (rewrite Hcache; exact Hmiss).
  split.
  - rewrite (getAsset_resolved _ _ _ Hkey).
    destruct (loadAsset_miss_state (apiBaseUrl videoConfig) key st' Hmiss')
      as [Hstate|(body & Hload & _)].
    + rewrite Hstate. reflexivity.
    + rewrite Hload. reflexivity.
  - apply getAsset_errors; assumption.
Qed.

(** *** The registry as an object, the strategy as given *)

Lemma dispatch_throws entries p asset what st :
  camelCase p = Throws what ->
  entries <> [] ->
  dispatch entries p asset st = (Err (Foreign what), st).
Proof.
  intros Hthrows Hne. destruct entries as [|[key t] rest]; [contradiction|].
  simpl. unfold bind, lift. rewrite Hthrows. reflexivity.
Qed.

(** X11.  The dispatcher does not depend on the order in which the
    registry lists its entries: two registries with the same entries (and,
    being objects, distinct keys) give the same outcome on every record. *)
Theorem transformAsset_registry_order
    (registry1 registry2 : TransformerRecord) asset st :
  NoDup (keys registry1) ->
  registry1 ≡ₚ registry2 ->
  transformAsset registry1 asset st = transformAsset registry2 asset st.
Proof.
  intros Hnd1 Hperm.
  assert (Hnd2 : NoDup (keys registry2)).
  { unfold keys in *. rewrite <- Hperm. exact Hnd1. }
  unfold Assets.transformAsset, bind, lift.
  destruct (member asset "provider") as [p|e]; simpl; [|reflexivity].
  destruct (truthy p); simpl; [|reflexivity].
  destruct (camelCase p) as [name|what] eqn:Hname.
  - destruct (decide (name ∈ keys registry1)) as [Hin|Hnotin].
    + apply list_elem_of_fmap in Hin as ([name' t] & -> & Hin). simpl.
      rewrite (dispatch_found registry1 _ _ _ t _ Hname Hnd1 Hin).
      rewrite (dispatch_found registry2 _ _ _ t _ Hname Hnd2); [reflexivity|].
      rewrite <- Hperm. exact Hin.
    + rewrite (dispatch_missing registry1 _ _ _ _ Hname Hnotin).
      rewrite (dispatch_missing registry2 _ _ _ _ Hname); [reflexivity|].
      unfold keys in *. rewrite <- Hperm. exact Hnotin.
  - destruct registry1 as [|entry rest].
    + apply Permutation_nil_l in Hperm. subst registry2. reflexivity.
    + rewrite (dispatch_throws (entry :: rest) _ _ _ _ Hname) by discriminate.
      rewrite (dispatch_throws registry2 _ _ _ _ Hname); [reflexivity|].
      intros ->. apply Permutation_nil_r in Hperm. discriminate.
Qed.

(** X12.  A strategy given in the configuration replaces the default one
    altogether: for a remote reference the key is the fragment the custom
    strategy returns, as returned (it does not pass through toSafePath),
    joined under the folder; the URL parser, decodeURIComponent and
    toSafePath have no part in it, and an exception of the strategy is the
    caller's. *)
Theorem custom_strategy_used_as_given
    filePath custom d
    (toSafePath' : string -> string)
    (URL' : string -> outcome (string * string))
    (decodeURIComponent' : string -> outcome string) :
  isRemote filePath = true ->
  remoteSourceAssetPath videoConfig = Some custom ->
  folder videoConfig = Some d ->
  d <> "" ->
  getAssetConfigPath filePath
  = match custom filePath with
    | Returns fragment => Ok (path_join d fragment ++ ".json")
    | Throws what => Err (Foreign what)
    end
  /\ Assets.getAssetConfigPath isRemote toSafePath' path_join URL'
       decodeURIComponent' videoConfig filePath
     = getAssetConfigPath filePath.
Proof.
  intros Hremote Hcustom Hfolder Hne.
  unfold Assets.getAssetConfigPath, Assets.getAssetPath, Assets.strategy.
  rewrite Hremote, Hcustom, Hfolder. simpl.
  destruct (String.eqb_spec d "") as [->|_]; [contradiction|].
  destruct (custom filePath); split; reflexivity.
Qed.

(** *** Where cached keys come from *)

Lemma loadAsset_new_key base key st k :
  is_Some (assetCache (snd (loadAsset base key st)) !! k) ->
  is_Some (assetCache st !! k) \/ k = key.
Proof.
  destruct (assetCache st !! key) as [cached|] eqn:Hlook.
  - rewrite (loadAsset_hit _ _ _ _ Hlook). auto.
  - destruct (loadAsset_miss_state base key st Hlook)
      as [Hstate|(body & Hload & _)].
    + rewrite Hstate. auto.
    + rewrite Hload. simpl. destruct (decide (key = k)) as [->|Hne]; [auto|].
      rewrite lookup_insert_ne by exact Hne. auto.
Qed.

Lemma getAsset_new_key filePath st k :
  is_Some (assetCache (snd (getAsset filePath st)) !! k) ->
  is_Some (assetCache st !! k) \/ getAssetConfigPath filePath = Ok k.
Proof.
  destruct (getAssetConfigPath filePath) as [key|e] eqn:Hkey.
  - rewrite (getAsset_resolved _ _ _ Hkey). intros H.
    apply loadAsset_new_key in H as [H| ->]; auto.
  - rewrite (getAsset_unresolved _ _ _ Hkey). auto.
Qed.

Lemma step_new_key o st k :
  is_Some (assetCache (step st o) !! k) ->
  is_Some (assetCache st !! k)
  \/ exists filePath,
       reads_of o = Some filePath /\ getAssetConfigPath filePath = Ok k.
Proof.
  destruct o as [filePath|filePath overrides|filePath assetDetails]; simpl.
  - intros H. apply getAsset_new_key in H as [H|H]; eauto.
  - rewrite createAsset_keeps. auto.
  - rewrite updateAsset_cache. intros H.
    apply getAsset_new_key in H as [H|H]; eauto.
Qed.

(** X13.  The cache holds entries only under storage keys of file
    references that a [getAsset] or an [updateAsset] was called with: from
    the empty cache, after any sequence of calls, every cached key is the
    resolved key of such a reference; [createAsset] adds none. *)
Theorem cached_keys_were_read ops key :
  is_Some (assetCache (run ops initial) !! key) ->
  exists o filePath,
    o ∈ ops
    /\ reads_of o = Some filePath
    /\ getAssetConfigPath filePath = Ok key.
Proof.
  assert (Hgen : forall st,
            is_Some (assetCache (run ops st) !! key) ->
            is_Some (assetCache st !! key)
            \/ exists o filePath,
                 o ∈ ops
                 /\ reads_of o = Some filePath
                 /\ getAssetConfigPath filePath = Ok key).
  { induction ops as [|o ops IH]; intros st; simpl; [auto|].
    intros H. apply IH in H as [H|(o' & f & Hin & Hreads & Hkey)].
    - apply step_new_key in H as [H|(f & Hreads & Hkey)]; [auto|].
      right. exists o, f. split; [left | auto].
    - right. exists o', f. split; [right; exact Hin | auto]. }
  intros H. apply Hgen in H as [H|H]; [|exact H].
  simpl in H. rewrite lookup_empty in H. destruct H; discriminate.
Qed.

(** X14.  Fields of overrides that [createAsset] does not set itself pass
    through to the record: for every key other than status,
    originalFilePath, provider, providerMetadata, createdAt, updatedAt and
    size, the returned record holds what overrides holds, and lacks the
    key when overrides does. *)
Theorem createAsset_passes_other_fields
    filePath (overrides : option object) k st r st' :
  createAsset filePath overrides st = (Ok r, st') ->
  NoDup (keys (default [] overrides)) ->
  k ∉ ["status"; "originalFilePath"; "provider"; "providerMetadata";
       "createdAt"; "updatedAt"; "size"] ->
  r = VObj (props r)
  /\ own k (props r) = own k (default [] overrides).
Proof.
  intros Hcreate Hnd Hk.
  apply createAsset_success in Hcreate as (key & _ & Hr & _).
  set (record := Assets.newAsset overrides _ _ _ _) in Hr.
  assert (Hne : forall k', k' ∈ ["status"; "originalFilePath"; "provider";
                                 "providerMetadata"; "createdAt"; "updatedAt";
                                 "size"] -> String.eqb k k' = false).
  { intros k' Hin. destruct (String.eqb_spec k k') as [->|]; [contradiction|].
    reflexivity. }
  assert (Hrecord : own k record = own k (default [] overrides)).
  { unfold record, Assets.newAsset. rewrite !own_assign.
    rewrite !Hne by (repeat first [left | right]).
    rewrite own_spread, (own_rev _ _ Hnd). simpl.
    rewrite Hne by left. destruct (own k (default [] overrides)); reflexivity. }
  destruct Hr as [->|(size & _ & ->)]; simpl.
  - split; [reflexivity | exact Hrecord].
  - split; [reflexivity|]. rewrite own_assign.
    rewrite Hne by (repeat first [left | right]). exact Hrecord.
Qed.

End Properties.

(** ** The deployment of [Scenario] *)

Lemma world_typed : typed_store Scenario.world.
Proof.
  intros h url r asset st Hfetch Hjson Hstatus. simpl in Hfetch.
  destruct (String.eqb url _) in Hfetch.
  - injection Hfetch as <-. simpl in Hjson. injection Hjson as <-.
    simpl in Hstatus. injection Hstatus as <-. reflexivity.
  - destruct (String.eqb url _) in Hfetch.
    + injection Hfetch as <-. simpl in Hjson. injection Hjson as <-.
      simpl in Hstatus. injection Hstatus as <-. reflexivity.
    + injection Hfetch as <-. discriminate.
Qed.

Lemma with_poster_keeps_createdAt key transform a b :
  (key, transform) ∈ Scenario.registry ->
  transform a = Returns b ->
  member b "createdAt" = member a "createdAt".
Proof.
  intros Hin. apply list_elem_of_singleton in Hin. injection Hin as -> ->.
  destruct a; try discriminate. simpl. intros Heq. injection Heq as <-.
  simpl. rewrite own_assign_ne by discriminate. reflexivity.
Qed.

(** A first read of a ready record: fetched, returned and cached. *)
Lemma getAsset_cache_then_store_witness :
  Scenario.getAssetConfigPath Scenario.config "videos/ready.mp4"
  = Ok "videos/ready.mp4.json"
  /\ fst (Scenario.getAsset "videos/ready.mp4" initial) = Ok Scenario.ready_record
  /\ assetCache (snd (Scenario.getAsset "videos/ready.mp4" initial))
     = <["videos/ready.mp4.json" := Scenario.ready_record]> ∅
  /\ Scenario.getAsset "videos/ready.mp4" Scenario.warm
     = (Ok Scenario.ready_record, Scenario.warm).
Proof.
  split; [reflexivity|].
  destruct (getAsset_cache_then_store Scenario.isRemote Scenario.toSafePath
              Scenario.path_join Scenario.URL Scenario.decodeURIComponent
              Scenario.config Scenario.world
              "videos/ready.mp4" "videos/ready.mp4.json" initial eq_refl)
    as [_ Hmiss].
  destruct (Hmiss eq_refl) as [_ Hload].
  destruct (Hload _ Scenario.ready_record (VStr "ready")
              eq_refl eq_refl eq_refl eq_refl eq_refl) as (Hres & Hin & _).
  split; [exact Hres|]. split; [exact (Hin eq_refl)|].
  apply (getAsset_cache_then_store Scenario.isRemote Scenario.toSafePath
           Scenario.path_join Scenario.URL Scenario.decodeURIComponent
           Scenario.config Scenario.world
           "videos/ready.mp4" "videos/ready.mp4.json" Scenario.warm eq_refl).
  reflexivity.
Defined.

(** Reads, a create and updates in a row: the cache holds the ready
    record, and keeps it. *)
Lemma cache_invariant_witness :
  typed_store Scenario.world
  /\ all_ready
       (assetCache
          (Scenario.run
             [Assets.OpGet "videos/ready.mp4"; Assets.OpGet "videos/new.mp4";
              Assets.OpCreate "videos/other.mp4" (Some [("status", VStr "ready")]);
              Assets.OpUpdate "videos/new.mp4" [("status", VStr "ready")]]
             initial))
  /\ assetCache (Scenario.run [Assets.OpGet "videos/ready.mp4"] initial)
     ⊆ assetCache
         (Scenario.run
            ([Assets.OpGet "videos/ready.mp4"]
             ++ [Assets.OpUpdate "videos/ready.mp4" [("status", VStr "error")]])
            initial).
Proof.
  split; [exact world_typed|]. split.
  - apply (cache_invariant Scenario.isRemote Scenario.toSafePath
             Scenario.camelCase Scenario.path_join Scenario.path_relative
             Scenario.cwd Scenario.URL Scenario.decodeURIComponent
             Scenario.config Scenario.registry Scenario.world _ []).
    exact world_typed.
  - apply (cache_invariant Scenario.isRemote Scenario.toSafePath
             Scenario.camelCase Scenario.path_join Scenario.path_relative
             Scenario.cwd Scenario.URL Scenario.decodeURIComponent
             Scenario.config Scenario.registry Scenario.world).
    exact world_typed.
Defined.

(** A patch that names createdAt replaces it; so does a transform that
    writes it. *)
Lemma createdAt_not_invariant_across_updates :
  fst (Scenario.getAsset "videos/ready.mp4" initial) = Ok Scenario.ready_record
  /\ member Scenario.ready_record "createdAt" = Ok (VNum 10)
  /\ fst ((let! r := Scenario.updateAsset "videos/ready.mp4"
                      [("createdAt", VNum 5)] in
          lift (member r "createdAt")) initial) = Ok (VNum 5)
  /\ fst ((let! r := Scenario.updateAsset_restamping "videos/ready.mp4"
                      [("poster", VStr "p.png")] in
          lift (member r "createdAt")) initial) = Ok (VNum 0).
Proof. repeat split; vm_compute; reflexivity. Qed.

(** An update of the poster of videos/ready.mp4 keeps its createdAt,
    through the mux transform; an update that names createdAt sets it. *)
Lemma updateAsset_createdAt_follows_patch_witness :
  (exists r st',
      Scenario.updateAsset "videos/ready.mp4" [("poster", VStr "p.png")] initial
      = (Ok r, st')
      /\ member r "createdAt" = Ok (VNum 10))
  /\ (exists r st',
        Scenario.updateAsset "videos/ready.mp4" [("createdAt", VNum 5)] initial
        = (Ok r, st')
        /\ member r "createdAt" = Ok (VNum 5)).
Proof.
  assert (Hc : NoDup (keys (props Scenario.ready_record)))
    by (apply (bool_decide_unpack _); vm_compute; reflexivity).
  split.
  - eexists _, _. split; [vm_compute; reflexivity|].
    destruct (updateAsset_createdAt_follows_patch Scenario.isRemote
                Scenario.toSafePath Scenario.camelCase Scenario.path_join
                Scenario.URL Scenario.decodeURIComponent Scenario.config
                Scenario.registry Scenario.world "videos/ready.mp4"
                [("poster", VStr "p.png")] initial
                (props Scenario.ready_record) Scenario.warm _ _
                ltac:(vm_compute; reflexivity) Hc
                ltac:(apply (bool_decide_unpack _); vm_compute; reflexivity)
                ltac:(vm_compute; reflexivity))
      as (Hkept & _ & _ & Hreturned & _).
    etransitivity; [apply Hreturned | exact (Hkept eq_refl)].
    intros p name transform _ _ Hin Htransform.
    exact (with_poster_keeps_createdAt name transform _ _ Hin Htransform).
  - eexists _, _. split; [vm_compute; reflexivity|].
    destruct (updateAsset_createdAt_follows_patch Scenario.isRemote
                Scenario.toSafePath Scenario.camelCase Scenario.path_join
                Scenario.URL Scenario.decodeURIComponent Scenario.config
                Scenario.registry Scenario.world "videos/ready.mp4"
                [("createdAt", VNum 5)] initial
                (props Scenario.ready_record) Scenario.warm _ _
                ltac:(vm_compute; reflexivity) Hc
                ltac:(apply (bool_decide_unpack _); vm_compute; reflexivity)
                ltac:(vm_compute; reflexivity))
      as (_ & Hset & _ & Hreturned & _).
    etransitivity; [apply Hreturned | exact (Hset (VNum 5) eq_refl eq_refl)].
    intros p name transform _ _ Hin Htransform.
    exact (with_poster_keeps_createdAt name transform _ _ Hin Htransform).
Defined.

(** A patch with an updatedAt of its own does not decide updatedAt. *)
Lemma merged_updatedAt_is_merge_time_witness :
  Scenario.getAsset "videos/ready.mp4" initial
  = (Ok Scenario.ready_record, Scenario.warm)
  /\ truthy Scenario.ready_record = true
  /\ member (Assets.merged Scenario.ready_record [("updatedAt", VNum 7)]
               (clock Scenario.world (history Scenario.warm))) "updatedAt"
     = Ok (VNum 1001).
Proof.
  split; [vm_compute; reflexivity|]. split; [reflexivity|].
  apply (merged_updatedAt_is_merge_time Scenario.isRemote Scenario.toSafePath
           Scenario.camelCase Scenario.path_join Scenario.URL
           Scenario.decodeURIComponent Scenario.config Scenario.registry
           Scenario.world "videos/ready.mp4" [("updatedAt", VNum 7)] initial
           Scenario.ready_record Scenario.warm).
  - vm_compute. reflexivity.
  - reflexivity.
Defined.

(** The example of the merge, through [updateAsset]: the record of
    videos/nested.mp4 has a = {x: 0, y: 2} and no transform registered for
    its provider. *)
Lemma updateAsset_merges_key_by_key_witness :
  exists r st',
    Scenario.updateAsset_nested "videos/nested.mp4"
      [("a", VObj [("x", VNum 1)])] initial = (Ok r, st')
    /\ own "a" (props r) = Some (VObj [("x", VNum 1); ("y", VNum 2)])
    /\ own "status" (props r) = Some (VStr "pending").
Proof.
  eexists _, _. split; [vm_compute; reflexivity|].
  destruct (updateAsset_merges_key_by_key Scenario.isRemote
              Scenario.toSafePath Scenario.camelCase Scenario.path_join
              Scenario.URL Scenario.decodeURIComponent Scenario.config
              Scenario.registry Scenario.nested_world "videos/nested.mp4"
              [("a", VObj [("x", VNum 1)])] initial
              (props Scenario.nested_record) _
              ltac:(vm_compute; reflexivity)
              ltac:(apply (bool_decide_unpack _); vm_compute; reflexivity)
              ltac:(apply (bool_decide_unpack _); vm_compute; reflexivity))
    as (_ & Hreturned & Hkeys & _ & _ & Hexample).
  destruct (Hreturned _ _ ltac:(vm_compute; reflexivity))
    as [Hmerged|(p & name & transform & Hp & Hname & Hin & _)].
  - rewrite Hmerged. split.
    + exact (Hexample eq_refl eq_refl).
    + rewrite Hkeys by discriminate. reflexivity.
  - exfalso. vm_compute in Hp. injection Hp as <-.
    injection Hname as <-. apply list_elem_of_singleton in Hin. discriminate.
Defined.

(** A mux record goes through the transform registered for mux, once; a
    record of another provider goes through none. *)
Lemma transformAsset_dispatch_witness :
  NoDup (keys Scenario.registry)
  /\ member Scenario.ready_record "provider" = Ok (VStr "mux")
  /\ Scenario.transformAsset Scenario.registry Scenario.ready_record initial
     = (foreign (Scenario.with_poster Scenario.ready_record),
        after (EvTransform "mux") initial)
  /\ Scenario.transformAsset Scenario.registry
       (VObj [("provider", VStr "vimeo")]) initial
     = (Ok (VObj [("provider", VStr "vimeo")]), initial).
Proof.
  assert (Hnd : NoDup (keys Scenario.registry))
    by (apply (bool_decide_unpack _); vm_compute; reflexivity).
  split; [exact Hnd|]. split; [reflexivity|]. split.
  - destruct (transformAsset_dispatch Scenario.camelCase Scenario.registry
                Scenario.ready_record (VStr "mux") initial Hnd eq_refl)
      as (_ & Hfound & _).
    destruct (Hfound eq_refl "mux" eq_refl) as [Hcall _].
    apply Hcall. left.
  - destruct (transformAsset_dispatch Scenario.camelCase Scenario.registry
                (VObj [("provider", VStr "vimeo")]) (VStr "vimeo") initial
                Hnd eq_refl) as (_ & Hfound & _).
    destruct (Hfound eq_refl "vimeo" eq_refl) as [_ Hnone].
    apply Hnone. simpl. intros Hin. apply list_elem_of_singleton in Hin.
    discriminate.
Defined.

(** A local path; a remote url with an escaped colon and a query, under
    the folder videos; a url with a broken escape; and a url when no
    folder is configured.  The parser, decoder and toSafePath are those of
    [Scenario.web_key]. *)
Lemma storage_key_resolution_witness :
  Scenario.isRemote "videos/ready.mp4" = false
  /\ Scenario.web_key Scenario.config_no_folder "videos/ready.mp4"
     = Ok "videos/ready.mp4.json"
  /\ Scenario.isRemote "https://example.com/a%3Ab%20c.mp4?x=1" = true
  /\ Scenario.web_key Scenario.config "https://example.com/a%3Ab%20c.mp4?x=1"
     = Ok "videos/example.com/a_b c.mp4.json"
  /\ Scenario.web_key Scenario.config "https://example.com/a%zz"
     = Err (Foreign "URI malformed")
  /\ Scenario.web_key Scenario.config_no_folder
       "https://example.com/a%3Ab%20c.mp4?x=1"
     = Err MissingFolderConfig.
Proof.
  split; [reflexivity|]. split.
  - apply (storage_key_resolution Scenario.isRemote Scenario.sanitize
             Scenario.path_join Scenario.parse_url Scenario.percent_decode
             Scenario.config_no_folder "videos/ready.mp4").
    reflexivity.
  - split; [reflexivity|]. split; [|split].
    + destruct (storage_key_resolution Scenario.isRemote Scenario.sanitize
                  Scenario.path_join Scenario.parse_url Scenario.percent_decode
                  Scenario.config "https://example.com/a%3Ab%20c.mp4?x=1")
        as [_ Hremote].
      destruct (Hremote eq_refl) as [_ Hjoin].
      destruct (Hjoin "videos" eq_refl ltac:(discriminate)) as [Hdefault _].
      destruct (Hdefault eq_refl) as [Hkey _].
      exact (Hkey "example.com" "/a%3Ab%20c.mp4" "example.com/a:b c.mp4"
               eq_refl eq_refl).
    + destruct (storage_key_resolution Scenario.isRemote Scenario.sanitize
                  Scenario.path_join Scenario.parse_url Scenario.percent_decode
                  Scenario.config "https://example.com/a%zz")
        as [_ Hremote].
      destruct (Hremote eq_refl) as [_ Hjoin].
      destruct (Hjoin "videos" eq_refl ltac:(discriminate)) as [Hdefault _].
      destruct (Hdefault eq_refl) as (_ & _ & Hthrows).
      exact (Hthrows "example.com" "/a%zz" "URI malformed" eq_refl eq_refl).
    + destruct (storage_key_resolution Scenario.isRemote Scenario.sanitize
                  Scenario.path_join Scenario.parse_url Scenario.percent_decode
                  Scenario.config_no_folder
                  "https://example.com/a%3Ab%20c.mp4?x=1") as [_ Hremote].
      destruct (Hremote eq_refl) as [Hiff _].
      apply Hiff. left. reflexivity.
Defined.

(** Creating the record of a local file with overrides that try to set
    the provider and createdAt. *)
Lemma createAsset_record_witness :
  let overrides := Some [("provider", VStr "other"); ("createdAt", VNum 1)] in
  exists r st',
    Scenario.createAsset "/app/videos/clip.mp4" overrides initial = (Ok r, st')
    /\ member r "status" = Ok (VStr "pending")
    /\ member r "originalFilePath" = Ok (VStr "videos/clip.mp4")
    /\ member r "provider" = Ok (VStr "mux")
    /\ member r "createdAt" = Ok (VNum 1000)
    /\ assetCache st' = ∅.
Proof.
  intros overrides. eexists _, _. split; [vm_compute; reflexivity|].
  destruct (createAsset_record Scenario.isRemote Scenario.toSafePath
              Scenario.path_join Scenario.path_relative Scenario.cwd
              Scenario.URL Scenario.decodeURIComponent Scenario.config
              Scenario.world "/app/videos/clip.mp4" overrides initial _ _
              ltac:(vm_compute; reflexivity))
    as (Hstatus & _ & Horig & Hprov & _ & Hcreated & _ & _ & Hcache).
  split; [exact (Hstatus eq_refl)|]. split; [exact Horig|].
  split; [exact Hprov|]. split; [exact Hcreated|]. exact Hcache.
Defined.

(** The stat of clips/new.mp4 fails, and the size given in overrides is
    the size of the record. *)
Lemma stat_failure_leaves_overrides_size :
  Scenario.isRemote "clips/new.mp4" = false
  /\ stat_reply Scenario.world [EvNow; EvNow] "clips/new.mp4" = Throws "ENOENT"
  /\ fst ((let! r := Scenario.createAsset "clips/new.mp4"
                      (Some [("size", VNum 5)]) in
          lift (member r "size")) initial) = Ok (VNum 5).
Proof. repeat split; vm_compute; reflexivity. Qed.

(** The stat of clips/new.mp4 fails and the record is created all the
    same, without a size.  The store has no record of it: the read throws.
    Against a store that refuses writes, the create and an update throw
    the store's refusal. *)
Lemma stat_failure_swallowed_other_errors_propagate_witness :
  Scenario.isRemote "clips/new.mp4" = false
  /\ stat_reply Scenario.world ([] ++ [EvNow; EvNow]) "clips/new.mp4"
     = Throws "ENOENT"
  /\ fst (Scenario.createAsset "clips/new.mp4" None initial)
     = Ok (VObj (Assets.newAsset None "clips/new.mp4" "mux" 1000 1001))
  /\ own "size" (Assets.newAsset None "clips/new.mp4" "mux" 1000 1001) = None
  /\ fst (Scenario.getAsset "clips/new.mp4" initial) = Err AssetNotFound
  /\ fst (Scenario.createAsset_readonly "clips/new.mp4" None initial)
     = Err (SaveFailed 403)
  /\ fst (Scenario.updateAsset_readonly "videos/ready.mp4"
            [("note", VStr "x")] initial)
     = Err (SaveFailed 403).
Proof.
  destruct (stat_failure_swallowed_other_errors_propagate Scenario.isRemote
              Scenario.toSafePath Scenario.camelCase Scenario.path_join
              Scenario.path_relative Scenario.cwd Scenario.URL
              Scenario.decodeURIComponent Scenario.config Scenario.registry
              Scenario.world "clips/new.mp4" None [] initial)
    as (Hstat & _ & _ & Hresolved & _).
  destruct (Hstat eq_refl "ENOENT" eq_refl) as (_ & Hreturns & Hsize & _).
  destruct (Hresolved "clips/new.mp4.json" eq_refl) as [Hread _].
  split; [reflexivity|]. split; [reflexivity|].
  split; [exact (Hreturns _ eq_refl eq_refl)|].
  split; [exact (Hsize eq_refl)|].
  split; [etransitivity; [exact (Hread eq_refl) | reflexivity]|].
  split.
  - destruct (stat_failure_swallowed_other_errors_propagate Scenario.isRemote
                Scenario.toSafePath Scenario.camelCase Scenario.path_join
                Scenario.path_relative Scenario.cwd Scenario.URL
                Scenario.decodeURIComponent Scenario.config Scenario.registry
                Scenario.readonly_world "clips/new.mp4" None [] initial)
      as (_ & _ & _ & Hrefused & _).
    destruct (Hrefused "clips/new.mp4.json" eq_refl) as [_ Hwrite].
    unfold Scenario.createAsset_readonly.
    rewrite (Hwrite _ _ eq_refl). reflexivity.
  - destruct (stat_failure_swallowed_other_errors_propagate Scenario.isRemote
                Scenario.toSafePath Scenario.camelCase Scenario.path_join
                Scenario.path_relative Scenario.cwd Scenario.URL
                Scenario.decodeURIComponent Scenario.config Scenario.registry
                Scenario.readonly_world "videos/ready.mp4" None
                [("note", VStr "x")] initial)
      as (_ & _ & _ & _ & _ & Hupdate).
    destruct (Hupdate Scenario.ready_record Scenario.warm
                ltac:(vm_compute; reflexivity)) as [_ Hpresent].
    destruct (Hpresent eq_refl) as [_ Hwrite].
    unfold Scenario.updateAsset_readonly.
    rewrite (Hwrite _ _ "videos/ready.mp4.json"
               ltac:(vm_compute; reflexivity) eq_refl).
    reflexivity.
Defined.

(** videos/ready.mp4 is cached; an update that sets a poster is written
    to the store, and the cache still answers with the record from before
    the update. *)
Lemma updateAsset_leaves_cache_stale_witness :
  exists r st',
    Scenario.updateAsset "videos/ready.mp4" [("note", VStr "x")] Scenario.warm
    = (Ok r, st')
    /\ member r "status" = Ok (VStr "ready")
    /\ member r "note" = Ok (VStr "x")
    /\ assetCache st' !! "videos/ready.mp4.json" = Some Scenario.ready_record
    /\ Scenario.getAsset "videos/ready.mp4" st' = (Ok Scenario.ready_record, st').
Proof.
  eexists _, _. split; [vm_compute; reflexivity|].
  split; [reflexivity|]. split; [reflexivity|].
  destruct (updateAsset_leaves_cache_stale Scenario.isRemote
              Scenario.toSafePath Scenario.camelCase Scenario.path_join
              Scenario.URL Scenario.decodeURIComponent Scenario.config
              Scenario.registry Scenario.world "videos/ready.mp4"
              [("note", VStr "x")] Scenario.warm _ _
              ltac:(vm_compute; reflexivity)) as (_ & _ & Hstale).
  destruct (Hstale "videos/ready.mp4.json" Scenario.ready_record
              eq_refl ltac:(vm_compute; reflexivity)) as (_ & Hentry & Hget).
  split; [exact Hentry | exact Hget].
Defined.

(** ** The deployment of [Scenario], continued *)

Lemma world_clock_monotone : monotone_clock Scenario.world.
Proof.
  intros h e. simpl. rewrite length_app. simpl. lia.
Qed.

(** The second read of videos/ready.mp4 is answered from the cache. *)
Lemma getAsset_memoizes_ready_witness :
  ready Scenario.ready_record
  /\ Scenario.getAsset "videos/ready.mp4" initial
     = (Ok Scenario.ready_record, Scenario.warm)
  /\ Scenario.getAsset "videos/ready.mp4" Scenario.warm
     = (Ok Scenario.ready_record, Scenario.warm).
Proof.
  split; [reflexivity|]. split; [vm_compute; reflexivity|].
  apply (getAsset_memoizes_ready Scenario.isRemote Scenario.toSafePath
           Scenario.path_join Scenario.URL Scenario.decodeURIComponent
           Scenario.config Scenario.world "videos/ready.mp4"
           Scenario.ready_record initial Scenario.warm).
  - vm_compute. reflexivity.
  - reflexivity.
Defined.

(** The pending record of videos/new.mp4 is fetched again by the second
    read. *)
Lemma getAsset_refetches_unready_witness :
  let st1 := snd (Scenario.getAsset "videos/new.mp4" initial) in
  let read := EvFetch (GET "https://api.test/assets/videos/new.mp4.json") in
  Scenario.getAsset "videos/new.mp4" initial = (Ok Scenario.pending_record, st1)
  /\ assetCache st1 !! "videos/new.mp4.json" = None
  /\ history (snd (Scenario.getAsset "videos/new.mp4" st1)) = [read; read].
Proof.
  intros st1 read. split; [vm_compute; reflexivity|].
  destruct (getAsset_refetches_unready Scenario.isRemote Scenario.toSafePath
              Scenario.path_join Scenario.URL Scenario.decodeURIComponent
              Scenario.config Scenario.world "videos/new.mp4"
              "videos/new.mp4.json" Scenario.pending_record (VStr "pending")
              initial st1)
    as (Hmiss & Hhistory & _).
  - reflexivity.
  - reflexivity.
  - vm_compute. reflexivity.
  - reflexivity.
  - reflexivity.
  - discriminate.
  - split; [exact Hmiss | exact Hhistory].
Defined.

(** The store has no record for clips/none.mp4: the read throws and
    nothing is cached. *)
Lemma getAsset_failure_keeps_cache_witness :
  let st1 := snd (Scenario.getAsset "clips/none.mp4" Scenario.warm) in
  Scenario.getAsset "clips/none.mp4" Scenario.warm = (Err AssetNotFound, st1)
  /\ assetCache st1 = assetCache Scenario.warm.
Proof.
  intros st1. split; [vm_compute; reflexivity|].
  apply (getAsset_failure_keeps_cache Scenario.isRemote Scenario.toSafePath
           Scenario.path_join Scenario.URL Scenario.decodeURIComponent
           Scenario.config Scenario.world "clips/none.mp4" AssetNotFound
           Scenario.warm st1).
  vm_compute. reflexivity.
Defined.

(** A store that answers null. *)
Lemma getAsset_body_not_a_record_witness :
  exists what,
    Assets.getAsset Scenario.isRemote Scenario.toSafePath Scenario.path_join
      Scenario.URL Scenario.decodeURIComponent Scenario.config
      Scenario.hollow_world "videos/new.mp4" initial
    = (Err (TypeError what),
       after (EvFetch (GET "https://api.test/assets/videos/new.mp4.json"))
         initial).
Proof.
  destruct (getAsset_body_not_a_record Scenario.isRemote Scenario.toSafePath
              Scenario.path_join Scenario.URL Scenario.decodeURIComponent
              Scenario.config Scenario.hollow_world "videos/new.mp4"
              "videos/new.mp4.json"
              {| ok := true; status := 200; json := Returns VNull |}
              VNull initial eq_refl eq_refl eq_refl eq_refl eq_refl)
    as [Hnull _].
  exact (Hnull eq_refl).
Defined.

(** Two updates of the cached videos/ready.mp4: the title set by the first
    is not in the record the second one writes. *)
Lemma updateAsset_merges_over_cached_witness :
  exists r1 st1,
    Scenario.updateAsset "videos/ready.mp4" [("title", VStr "a")] Scenario.warm
    = (Ok r1, st1)
    /\ member r1 "title" = Ok (VStr "a")
    /\ fst ((let! r2 := Scenario.updateAsset "videos/ready.mp4"
                         [("note", VStr "b")] in
            lift (member r2 "title")) st1) = Ok VUndef.
Proof.
  eexists _, _. split; [vm_compute; reflexivity|]. split; [reflexivity|].
  destruct (updateAsset_merges_over_cached Scenario.isRemote
              Scenario.toSafePath Scenario.camelCase Scenario.path_join
              Scenario.URL Scenario.decodeURIComponent Scenario.config
              Scenario.registry Scenario.world "videos/ready.mp4"
              "videos/ready.mp4.json" Scenario.ready_record
              [("note", VStr "b")] Scenario.warm eq_refl
              ltac:(vm_compute; reflexivity) eq_refl) as [_ Hsecond].
  unfold Scenario.updateAsset. unfold bind at 1.
  rewrite (Hsecond [("title", VStr "a")] _ _ ltac:(vm_compute; reflexivity)).
  vm_compute. reflexivity.
Defined.

(** An update of the uncached videos/new.mp4: read, clock, transform,
    write. *)
Lemma updateAsset_effects_in_order_witness :
  exists r st',
    Scenario.updateAsset "videos/new.mp4" [("note", VStr "b")] initial
    = (Ok r, st')
    /\ history st'
       = [EvFetch (GET "https://api.test/assets/videos/new.mp4.json"); EvNow;
          EvTransform "mux";
          EvFetch (POST "https://api.test/assets" "videos/new.mp4.json" r)]
    /\ exists key reads calls,
        Scenario.getAssetConfigPath Scenario.config "videos/new.mp4" = Ok key
        /\ history st'
           = (history initial ++ reads ++ [EvNow] ++ calls
              ++ [EvFetch (POST "https://api.test/assets" key r)])%list
        /\ (reads = []
            \/ reads
               = [EvFetch (GET ("https://api.test/assets" ++ "/" ++ key))])
        /\ (calls = [] \/ exists name, calls = [EvTransform name]).
Proof.
  eexists _, _. split; [vm_compute; reflexivity|]. split; [reflexivity|].
  apply (updateAsset_effects_in_order Scenario.isRemote Scenario.toSafePath
           Scenario.camelCase Scenario.path_join Scenario.URL
           Scenario.decodeURIComponent Scenario.config Scenario.registry
           Scenario.world "videos/new.mp4" [("note", VStr "b")] initial _ _
           ltac:(vm_compute; reflexivity)).
Defined.

(** Creating the record of the local videos/clip.mp4: two clock readings,
    the stat, the write. *)
Lemma createAsset_effects_in_order_witness :
  Scenario.getAssetConfigPath Scenario.config "videos/clip.mp4"
  = Ok "videos/clip.mp4.json"
  /\ exists record,
      history (snd (Scenario.createAsset "videos/clip.mp4" None initial))
      = [EvNow; EvNow; EvStat "videos/clip.mp4";
         EvFetch (POST "https://api.test/assets" "videos/clip.mp4.json"
                    (VObj record))].
Proof.
  split; [reflexivity|].
  destruct (createAsset_effects_in_order Scenario.isRemote Scenario.toSafePath
              Scenario.path_join Scenario.path_relative Scenario.cwd
              Scenario.URL Scenario.decodeURIComponent Scenario.config
              Scenario.world "videos/clip.mp4" None "videos/clip.mp4.json"
              initial eq_refl) as [[record Hshape] _].
  exists record. exact Hshape.
Defined.

(** The file is 1024 bytes long; overrides says 5. *)
Lemma createAsset_size_is_file_size_witness :
  Scenario.isRemote "videos/clip.mp4" = false
  /\ stat_reply Scenario.world ([] ++ [EvNow; EvNow]) "videos/clip.mp4"
     = Returns 1024
  /\ exists r st',
      Scenario.createAsset "videos/clip.mp4" (Some [("size", VNum 5)]) initial
      = (Ok r, st')
      /\ member r "size" = Ok (VNum 1024).
Proof.
  split; [reflexivity|]. split; [reflexivity|].
  eexists _, _. split; [vm_compute; reflexivity|].
  apply (createAsset_size_is_file_size Scenario.isRemote Scenario.toSafePath
           Scenario.path_join Scenario.path_relative Scenario.cwd
           Scenario.URL Scenario.decodeURIComponent Scenario.config
           Scenario.world "videos/clip.mp4" (Some [("size", VNum 5)]) 1024
           initial _ _ eq_refl eq_refl ltac:(vm_compute; reflexivity)).
Defined.

(** The clock of the deployment counts the interactions: the first
    reading is 1000, the second 1001. *)
Lemma createAsset_timestamps_ordered_witness :
  monotone_clock Scenario.world
  /\ exists r st',
      Scenario.createAsset "videos/clip.mp4" None initial = (Ok r, st')
      /\ member r "createdAt" = Ok (VNum 1000)
      /\ member r "updatedAt" = Ok (VNum 1001)
      /\ 1000 <= 1001.
Proof.
  split; [exact world_clock_monotone|].
  eexists _, _. split; [vm_compute; reflexivity|].
  exact (createAsset_timestamps_ordered Scenario.isRemote Scenario.toSafePath
           Scenario.path_join Scenario.path_relative Scenario.cwd
           Scenario.URL Scenario.decodeURIComponent Scenario.config
           Scenario.world "videos/clip.mp4" None initial _ _
           world_clock_monotone ltac:(vm_compute; reflexivity)).
Defined.

(** A record created with status ready, then read: the store is asked, and
    it has no record under that key. *)
Lemma createAsset_then_getAsset_asks_store_witness :
  exists r st',
    Scenario.createAsset "videos/clip.mp4" (Some [("status", VStr "ready")])
      initial = (Ok r, st')
    /\ member r "status" = Ok (VStr "ready")
    /\ history (snd (Scenario.getAsset "videos/clip.mp4" st'))
       = (history st'
          ++ [EvFetch (GET "https://api.test/assets/videos/clip.mp4.json")])%list
    /\ fst (Scenario.getAsset "videos/clip.mp4" st') = Err AssetNotFound.
Proof.
  eexists _, _. split; [vm_compute; reflexivity|]. split; [reflexivity|].
  destruct (createAsset_then_getAsset_asks_store Scenario.isRemote
              Scenario.toSafePath Scenario.path_join Scenario.path_relative
              Scenario.cwd Scenario.URL Scenario.decodeURIComponent
              Scenario.config Scenario.world "videos/clip.mp4"
              "videos/clip.mp4.json" (Some [("status", VStr "ready")])
              initial _ _ eq_refl eq_refl ltac:(vm_compute; reflexivity))
    as [Hhistory Houtcome].
  split; [exact Hhistory|].
  etransitivity; [exact Houtcome | vm_compute; reflexivity].
Defined.

(** Two entries, listed in either order. *)
Lemma transformAsset_registry_order_witness :
  let registry1 := [("mux", Scenario.with_poster); ("vimeo", Scenario.restamp)] in
  let registry2 := [("vimeo", Scenario.restamp); ("mux", Scenario.with_poster)] in
  NoDup (keys registry1)
  /\ registry1 ≡ₚ registry2
  /\ Scenario.transformAsset registry1 Scenario.ready_record initial
     = Scenario.transformAsset registry2 Scenario.ready_record initial.
Proof.
  intros registry1 registry2.
  assert (Hnd : NoDup (keys registry1))
    by (apply (bool_decide_unpack _); vm_compute; reflexivity).
  assert (Hperm : registry1 ≡ₚ registry2) by apply perm_swap.
  split; [exact Hnd|]. split; [exact Hperm|].
  apply (transformAsset_registry_order Scenario.camelCase registry1 registry2
           Scenario.ready_record initial Hnd Hperm).
Defined.

(** The custom strategy of [config_custom] prefixes the url. *)
Lemma custom_strategy_used_as_given_witness :
  Scenario.isRemote "https://example.com/a.mp4" = true
  /\ Scenario.getAssetConfigPath Scenario.config_custom
       "https://example.com/a.mp4"
     = Ok "videos/remote/https://example.com/a.mp4.json".
Proof.
  split; [reflexivity|].
  destruct (custom_strategy_used_as_given Scenario.isRemote Scenario.toSafePath
              Scenario.path_join Scenario.URL Scenario.decodeURIComponent
              Scenario.config_custom "https://example.com/a.mp4"
              (fun url => Returns ("remote/" ++ url)) "videos"
              Scenario.toSafePath Scenario.URL Scenario.decodeURIComponent
              eq_refl eq_refl eq_refl ltac:(discriminate)) as [Hkey _].
  exact Hkey.
Defined.

(** After a create and a read, the one cached key is the key of the
    reference that was read. *)
Lemma cached_keys_were_read_witness :
  let ops := [Assets.OpCreate "videos/clip.mp4" None;
              Assets.OpGet "videos/ready.mp4"] in
  is_Some (assetCache (Scenario.run ops initial) !! "videos/ready.mp4.json")
  /\ exists o filePath,
      o ∈ ops
      /\ reads_of o = Some filePath
      /\ Scenario.getAssetConfigPath Scenario.config filePath
         = Ok "videos/ready.mp4.json".
Proof.
  intros ops.
  assert (Hcached : is_Some (assetCache (Scenario.run ops initial)
                               !! "videos/ready.mp4.json"))
    by (eexists; vm_compute; reflexivity).
  split; [exact Hcached|].
  apply (cached_keys_were_read Scenario.isRemote Scenario.toSafePath
           Scenario.camelCase Scenario.path_join Scenario.path_relative
           Scenario.cwd Scenario.URL Scenario.decodeURIComponent
           Scenario.config Scenario.registry Scenario.world ops
           "videos/ready.mp4.json" Hcached).
Defined.

(** A title given in overrides is in the record. *)
Lemma createAsset_passes_other_fields_witness :
  let overrides := Some [("title", VStr "t"); ("provider", VStr "other")] in
  exists r st',
    Scenario.createAsset "videos/clip.mp4" overrides initial = (Ok r, st')
    /\ own "title" (props r) = Some (VStr "t").
Proof.
  intros overrides. eexists _, _. split; [vm_compute; reflexivity|].
  destruct (createAsset_passes_other_fields Scenario.isRemote
              Scenario.toSafePath Scenario.path_join Scenario.path_relative
              Scenario.cwd Scenario.URL Scenario.decodeURIComponent
              Scenario.config Scenario.world "videos/clip.mp4" overrides
              "title" initial _ _ ltac:(vm_compute; reflexivity))
    as [_ Hfield].
  - apply (bool_decide_unpack _). vm_compute. reflexivity.
  - apply (bool_decide_unpack _). vm_compute. reflexivity.
  - exact Hfield.
Defined.
